(** * Kumo: the data-access and retention layer

    A shallow embedding of the JavaScript sources of the Kumo job monitor:
    - [utils/QueryBuilder.js]       -> [Module QueryBuilder]
    - [utils/Validator.js]          -> [Module Validator]
    - [services/DatabaseService.js] -> [Module DatabaseService], over the
      store and the pooled client of [Module Pg]
    - [services/AutoClearService.js]-> [Module AutoClearService], over the
      timers of [Module Timers]
    - [middleware/errorHandler.js]  -> [Module ErrorHandler]

    JavaScript values, thrown errors and the few built-ins the sources call
    ([parseInt], [String.prototype.replace], [Array.prototype.join], template
    literals) are in [Module Js]. *)

From Stdlib Require Import String Ascii List ZArith Lia Bool Arith.
From Stdlib Require Import DecimalString Decimal DecimalNat.
Import ListNotations.
Open Scope list_scope.
Open Scope string_scope.

(** * JavaScript values and built-ins *)

Module Js.

(** The values that reach the modelled code: request parameters are strings
    or absent, the tests pass integers, the store returns rows (objects) of
    strings. [NaN] is the one non-integer number the code can produce
    (through [parseInt]). [Num n] is the number [n]; the built-ins below
    treat it as JavaScript does for the integers a double holds exactly and
    prints in full, those below 2^53 in absolute value. An object is its
    own properties in insertion order. *)
#[local] Set Warnings "-register-all".
Inductive value : Type :=
| Undefined
| Null
| Bool (b : bool)
| Num (n : Z)
| NaN
| Str (s : string)
| Arr (items : list value)
| Obj (properties : list (string * value)).

(** A thrown [Error] object, by constructor and [message]. *)
Inductive error : Type :=
| Error (message : string)
| TypeError (message : string).

Definition message (e : error) : string :=
  match e with
  | Error m => m
  | TypeError m => m
  end.

(** The completion of a call: it returns or it throws. *)
Inductive completion (A : Type) : Type :=
| Return (a : A)
| Throw (e : error).
Arguments Return {A} a.
Arguments Throw {A} e.

(** [v !== null] *)
Definition not_null (v : value) : bool :=
  match v with
  | Null => false
  | _ => true
  end.

(** A parameter default [value = null] replaces [undefined] only. *)
Definition default_null (v : value) : value :=
  match v with
  | Undefined => Null
  | _ => v
  end.

(** ToBoolean *)
Definition truthy (v : value) : bool :=
  match v with
  | Undefined | Null | NaN => false
  | Bool b => b
  | Num n => negb (n =? 0)%Z
  | Str s => negb (s =? "")
  | Arr _ | Obj _ => true
  end.

(** [a || b] *)
Definition or (a b : value) : value := if truthy a then a else b.

(** Decimal text of a natural number, as a template literal prints it. *)
Definition dec (n : nat) : string := NilEmpty.string_of_uint (Nat.to_uint n).

Definition dec_Z (n : Z) : string :=
  if (n <? 0)%Z then "-" ++ dec (Z.abs_nat n) else dec (Z.abs_nat n).

(** ToString, for integers below 10^21 in absolute value (above, JavaScript
    switches to exponent notation). *)
Fixpoint to_string (v : value) : string :=
  match v with
  | Undefined => "undefined"
  | Null => "null"
  | Bool true => "true"
  | Bool false => "false"
  | Num n => dec_Z n
  | NaN => "NaN"
  | Str s => s
  | Arr items =>
      String.concat ","
        (map (fun x => match x with Undefined | Null => "" | _ => to_string x end) items)
  | Obj _ => "[object Object]"
  end.

(** [a + b] on numbers. *)
Definition add (a b : value) : value :=
  match a, b with
  | Num x, Num y => Num (x + y)
  | _, _ => NaN
  end.

(** [a > b] and [a < b] on numbers; a comparison with [NaN] is false. *)
Definition gt (a b : value) : bool :=
  match a, b with
  | Num x, Num y => (y <? x)%Z
  | _, _ => false
  end.

Definition lt (a b : value) : bool :=
  match a, b with
  | Num x, Num y => (x <? y)%Z
  | _, _ => false
  end.

(** [isNaN(v)] for a number [v] *)
Definition isNaN (v : value) : bool :=
  match v with
  | NaN => true
  | _ => false
  end.

(** [a === b] where [b] is a string *)
Definition strict_eq_str (a : value) (b : string) : bool :=
  match a with
  | Str x => String.eqb x b
  | _ => false
  end.

(** [a === b] where [b] is a number *)
Definition strict_eq_num (a : value) (b : Z) : bool :=
  match a with
  | Num x => (x =? b)%Z
  | _ => false
  end.

(** ** parseInt(string) with no radix argument

    The white space skipped is that of ASCII (the texts here hold no
    other), and the digits are read exactly, as JavaScript reads them up to
    2^53. *)

Definition is_white_space (c : ascii) : bool :=
  let n := nat_of_ascii c in
  (Nat.eqb n 9 || Nat.eqb n 10 || Nat.eqb n 11 || Nat.eqb n 12
   || Nat.eqb n 13 || Nat.eqb n 32)%bool.

Fixpoint trim_start (s : string) : string :=
  match s with
  | String c s' => if is_white_space c then trim_start s' else s
  | EmptyString => s
  end.

Definition digit_of (c : ascii) : option Z :=
  let n := Z.of_nat (nat_of_ascii c) in
  if ((48 <=? n) && (n <=? 57))%Z%bool then Some (n - 48)%Z
  else if ((97 <=? n) && (n <=? 122))%Z%bool then Some (n - 87)%Z
  else if ((65 <=? n) && (n <=? 90))%Z%bool then Some (n - 55)%Z
  else None.

(** The longest prefix of digits of the radix, as a number; [acc] is [None]
    until a digit has been read. *)
Fixpoint parse_digits (radix : Z) (s : string) (acc : option Z) : option Z :=
  match s with
  | String c s' =>
      match digit_of c with
      | Some d =>
          if (d <? radix)%Z
          then parse_digits radix s'
                 (Some (match acc with Some a => a * radix + d | None => d end)%Z)
          else acc
      | None => acc
      end
  | EmptyString => acc
  end.

(** An optional sign. *)
Definition strip_sign (s : string) : bool * string :=
  match s with
  | String "-" s' => (true, s')
  | String "+" s' => (false, s')
  | _ => (false, s)
  end.

(** The radix: 16 after a [0x] or [0X] prefix, 10 otherwise. *)
Definition strip_radix (s : string) : Z * string :=
  match s with
  | String "0" (String "x" s') => (16%Z, s')
  | String "0" (String "X" s') => (16%Z, s')
  | _ => (10%Z, s)
  end.

Definition parseInt (v : value) : value :=
  let s := trim_start (to_string v) in
  let '(negative, s) := strip_sign s in
  let '(radix, s) := strip_radix s in
  match parse_digits radix s None with
  | Some n => Num (if negative then - n else n)
  | None => NaN
  end.

(** ** String.prototype.replace(pattern, replacement), one-character pattern

    With a string pattern only the first occurrence is replaced. The
    replacements used here are [$] followed by digits; with a string pattern
    there are no capture groups, so such a replacement is inserted as it is. *)
Fixpoint replace (c : ascii) (replacement : string) (s : string) : string :=
  match s with
  | String a s' =>
      if Ascii.eqb a c then replacement ++ s'
      else String a (replace c replacement s')
  | EmptyString => EmptyString
  end.

(** Array.prototype.join *)
Definition join (sep : string) (l : list string) : string := String.concat sep l.

Fixpoint lookup (properties : list (string * value)) (key : string) : option value :=
  match properties with
  | (k, v) :: rest => if String.eqb k key then Some v else lookup rest key
  | [] => None
  end.

(** [o.key]: [undefined] for a property the object lacks, a [TypeError] when
    [o] is [undefined] or [null]. *)
Definition get (o : value) (key : string) : completion value :=
  match o with
  | Obj properties =>
      Return (match lookup properties key with Some v => v | None => Undefined end)
  | Undefined =>
      Throw (TypeError ("Cannot read properties of undefined (reading '" ++ key ++ "')"))
  | Null =>
      Throw (TypeError ("Cannot read properties of null (reading '" ++ key ++ "')"))
  | _ => Return Undefined
  end.

(** [o.key] where [o] is known to be an object (a row of a result, an
    element produced by the driver): such an access cannot throw. *)
Definition field (o : value) (key : string) : value :=
  match o with
  | Obj properties => match lookup properties key with Some v => v | None => Undefined end
  | _ => Undefined
  end.

Fixpoint assign (properties : list (string * value)) (key : string) (v : value)
  : list (string * value) :=
  match properties with
  | (k, x) :: rest =>
      if String.eqb k key then (k, v) :: rest else (k, x) :: assign rest key v
  | [] => [(key, v)]
  end.

(** [o.key = v] on an object: an existing property keeps its place. *)
Definition set (o : value) (key : string) (v : value) : value :=
  match o with
  | Obj properties => Obj (assign properties key v)
  | _ => o
  end.

(** [a[0]] *)
Definition first (l : list value) : value :=
  match l with
  | x :: _ => x
  | [] => Undefined
  end.

End Js.

(** * utils/QueryBuilder.js *)

Module QueryBuilder.

Record join_clause : Type := { j_table : string; j_condition : string; j_type : string }.
Record where_clause : Type := { condition : string; value : Js.value }.
Record order_clause : Type := { field : string; direction : string }.

(** The fields of a [QueryBuilder] instance. [selectFields] is [null] until
    [select] is called. *)
Record t : Type := {
  selectFields : option (list string);
  fromTable : string;
  joins : list join_clause;
  whereConditions : list where_clause;
  groupByFields : list string;
  orderByClauses : list order_clause;
  limitValue : Js.value;
  offsetValue : Js.value;
  params : list Js.value;
  paramIndex : nat
}.

(** [new QueryBuilder()] *)
Definition new : t := {|
  selectFields := None;
  fromTable := "";
  joins := [];
  whereConditions := [];
  groupByFields := [];
  orderByClauses := [];
  limitValue := Js.Null;
  offsetValue := Js.Null;
  params := [];
  paramIndex := 1
|}.

(** An argument that is one string or an array of strings. *)
Inductive fields : Type :=
| One (f : string)
| Array (fs : list string).

(** [Array.isArray(fields) ? fields : [fields]] *)
Definition as_array (f : fields) : list string :=
  match f with
  | One x => [x]
  | Array xs => xs
  end.

(** The template literal [`$${this.paramIndex}`]. *)
Definition marker (index : nat) : string := "$" ++ Js.dec index.

Definition select (f : fields) (this : t) : t := {|
  selectFields := Some (as_array f);
  fromTable := fromTable this;
  joins := joins this;
  whereConditions := whereConditions this;
  groupByFields := groupByFields this;
  orderByClauses := orderByClauses this;
  limitValue := limitValue this;
  offsetValue := offsetValue this;
  params := params this;
  paramIndex := paramIndex this
|}.

Definition from (table : string) (this : t) : t := {|
  selectFields := selectFields this;
  fromTable := table;
  joins := joins this;
  whereConditions := whereConditions this;
  groupByFields := groupByFields this;
  orderByClauses := orderByClauses this;
  limitValue := limitValue this;
  offsetValue := offsetValue this;
  params := params this;
  paramIndex := paramIndex this
|}.

(** [join(table, condition, type = 'LEFT')]; [None] is an omitted [type]. *)
Definition join (table cond : string) (type : option string) (this : t) : t := {|
  selectFields := selectFields this;
  fromTable := fromTable this;
  joins := (joins this ++ [ {| j_table := table; j_condition := cond;
                               j_type := match type with Some ty => ty | None => "LEFT" end |} ])%list;
  whereConditions := whereConditions this;
  groupByFields := groupByFields this;
  orderByClauses := orderByClauses this;
  limitValue := limitValue this;
  offsetValue := offsetValue this;
  params := params this;
  paramIndex := paramIndex this
|}.

(** [where(condition, value = null)]; an omitted value is [Js.Undefined].
    ([where] is a reserved word of Rocq.) *)
Definition where_ (cond : string) (v : Js.value) (this : t) : t :=
  let v := Js.default_null v in
  if Js.not_null v then {|
    selectFields := selectFields this;
    fromTable := fromTable this;
    joins := joins this;
    whereConditions := (whereConditions this ++
      [ {| condition := Js.replace "?" (marker (paramIndex this)) cond; value := v |} ])%list;
    groupByFields := groupByFields this;
    orderByClauses := orderByClauses this;
    limitValue := limitValue this;
    offsetValue := offsetValue this;
    params := (params this ++ [v])%list;
    paramIndex := S (paramIndex this)
  |} else {|
    selectFields := selectFields this;
    fromTable := fromTable this;
    joins := joins this;
    whereConditions := (whereConditions this ++ [ {| condition := cond; value := Js.Null |} ])%list;
    groupByFields := groupByFields this;
    orderByClauses := orderByClauses this;
    limitValue := limitValue this;
    offsetValue := offsetValue this;
    params := params this;
    paramIndex := paramIndex this
  |}.

Definition groupBy (f : fields) (this : t) : t := {|
  selectFields := selectFields this;
  fromTable := fromTable this;
  joins := joins this;
  whereConditions := whereConditions this;
  groupByFields := as_array f;
  orderByClauses := orderByClauses this;
  limitValue := limitValue this;
  offsetValue := offsetValue this;
  params := params this;
  paramIndex := paramIndex this
|}.

(** [orderBy(field, direction = 'ASC')] *)
Definition orderBy (f : string) (dir : option string) (this : t) : t := {|
  selectFields := selectFields this;
  fromTable := fromTable this;
  joins := joins this;
  whereConditions := whereConditions this;
  groupByFields := groupByFields this;
  orderByClauses := (orderByClauses this ++
    [ {| field := f; direction := match dir with Some d => d | None => "ASC" end |} ])%list;
  limitValue := limitValue this;
  offsetValue := offsetValue this;
  params := params this;
  paramIndex := paramIndex this
|}.

Definition limit (v : Js.value) (this : t) : t := {|
  selectFields := selectFields this;
  fromTable := fromTable this;
  joins := joins this;
  whereConditions := whereConditions this;
  groupByFields := groupByFields this;
  orderByClauses := orderByClauses this;
  limitValue := v;
  offsetValue := offsetValue this;
  params := params this;
  paramIndex := paramIndex this
|}.

Definition offset (v : Js.value) (this : t) : t := {|
  selectFields := selectFields this;
  fromTable := fromTable this;
  joins := joins this;
  whereConditions := whereConditions this;
  groupByFields := groupByFields this;
  orderByClauses := orderByClauses this;
  limitValue := limitValue this;
  offsetValue := v;
  params := params this;
  paramIndex := paramIndex this
|}.

(** What [build] returns: [{ query, params }]. *)
Record built : Type := { query : string; built_params : list Js.value }.

(** The statement up to and including ORDER BY (lines 69-95 of the source). *)
Definition clauses (fs : list string) (this : t) : string :=
  let query := "SELECT " ++ Js.join ", " fs ++ " FROM " ++ fromTable this in
  let query :=
    fold_left
      (fun q j => q ++ " " ++ j_type j ++ " JOIN " ++ j_table j ++ " ON " ++ j_condition j)
      (joins this) query in
  let query :=
    if (0 <? length (whereConditions this))%nat
    then query ++ " WHERE " ++ Js.join " AND " (map condition (whereConditions this))
    else query in
  let query :=
    if (0 <? length (groupByFields this))%nat
    then query ++ " GROUP BY " ++ Js.join ", " (groupByFields this)
    else query in
  if (0 <? length (orderByClauses this))%nat
  then query ++ " ORDER BY " ++
       Js.join ", " (map (fun o => field o ++ " " ++ direction o) (orderByClauses this))
  else query.

(** [build()] returns or throws, and leaves the instance with the limit and
    offset values pushed on [params] and [paramIndex] advanced past the
    limit marker. *)
Definition build (this : t) : Js.completion built * t :=
  match selectFields this with
  | None => (Js.Throw (Js.Error "SELECT clause is required"), this)
  | Some fs =>
      let query := clauses fs this in
      let '(query, params, paramIndex) :=
        if Js.not_null (limitValue this)
        then (query ++ " LIMIT " ++ marker (paramIndex this),
              (params this ++ [limitValue this])%list,
              S (paramIndex this))
        else (query, params this, paramIndex this) in
      let '(query, params) :=
        if Js.not_null (offsetValue this)
        then (query ++ " OFFSET " ++ marker paramIndex, (params ++ [offsetValue this])%list)
        else (query, params) in
      (Js.Return {| query := query; built_params := params |},
       {| selectFields := selectFields this;
          fromTable := fromTable this;
          joins := joins this;
          whereConditions := whereConditions this;
          groupByFields := groupByFields this;
          orderByClauses := orderByClauses this;
          limitValue := limitValue this;
          offsetValue := offsetValue this;
          params := params;
          paramIndex := paramIndex |})
  end.

(** ** Call sequences on a builder *)

Inductive call : Type :=
| Select (f : fields)
| From (table : string)
| Join (table cond : string) (type : option string)
| Where (cond : string) (v : Js.value)
| GroupBy (f : fields)
| OrderBy (f : string) (dir : option string)
| Limit (v : Js.value)
| Offset (v : Js.value).

Definition apply (this : t) (c : call) : t :=
  match c with
  | Select f => select f this
  | From table => from table this
  | Join table cond type => join table cond type this
  | Where cond v => where_ cond v this
  | GroupBy f => groupBy f this
  | OrderBy f dir => orderBy f dir this
  | Limit v => limit v this
  | Offset v => offset v this
  end.

(** The calls made in order on a fresh builder, then [build()]. *)
Definition run (calls : list call) : Js.completion built :=
  fst (build (fold_left apply calls new)).

Definition is_select (c : call) : bool :=
  match c with
  | Select _ => true
  | _ => false
  end.

(** The values supplied to [where], in call order. *)
Fixpoint where_values (calls : list call) : list Js.value :=
  match calls with
  | Where _ v :: cs =>
      if Js.not_null (Js.default_null v) then v :: where_values cs else where_values cs
  | _ :: cs => where_values cs
  | [] => []
  end.

(** The value last given to [limit] (resp. [offset]), [null] when never called. *)
Definition last_limit (calls : list call) : Js.value :=
  fold_left (fun acc c => match c with Limit v => v | _ => acc end) calls Js.Null.

Definition last_offset (calls : list call) : Js.value :=
  fold_left (fun acc c => match c with Offset v => v | _ => acc end) calls Js.Null.

(** The numbering the specification describes: each [where] that supplies a
    value takes the next positional marker, in call order, starting at [k]. *)
Fixpoint numbered_conditions (k : nat) (calls : list call) : list string :=
  match calls with
  | Where cond v :: cs =>
      if Js.not_null (Js.default_null v)
      then Js.replace "?" (marker k) cond :: numbered_conditions (S k) cs
      else cond :: numbered_conditions k cs
  | _ :: cs => numbered_conditions k cs
  | [] => []
  end.

(** [c] occurs in [s]. *)
Fixpoint contains (c : ascii) (s : string) : bool :=
  match s with
  | String a s' => (Ascii.eqb a c || contains c s')%bool
  | EmptyString => false
  end.

(** Positions at which [pat] occurs in [s]. *)
Fixpoint occurrences_from (pos : nat) (pat s : string) : list nat :=
  match s with
  | String _ s' =>
      if String.prefix pat s then pos :: occurrences_from (S pos) pat s'
      else occurrences_from (S pos) pat s'
  | EmptyString => []
  end.

Definition occurrences (pat s : string) : list nat := occurrences_from 0 pat s.

End QueryBuilder.

(** * utils/Validator.js *)

Module Validator.

(** The character classes of [uuidRegex], which is case-insensitive:
    [/^[0-9a-f]{8}-[0-9a-f]{4}-[1-5][0-9a-f]{3}-[89ab][0-9a-f]{3}-[0-9a-f]{12}$/i]. *)
Definition hex (c : ascii) : bool :=
  match Js.digit_of c with
  | Some d => (d <? 16)%Z
  | None => false
  end.

Definition dash (c : ascii) : bool := Ascii.eqb c "-".

Definition version (c : ascii) : bool :=
  match Js.digit_of c with
  | Some d => ((1 <=? d) && (d <=? 5))%Z%bool
  | None => false
  end.

Definition variant (c : ascii) : bool :=
  match Js.digit_of c with
  | Some d => ((8 <=? d) && (d <=? 11))%Z%bool
  | None => false
  end.

Definition uuidRegex : list (ascii -> bool) :=
  (repeat hex 8 ++ [dash] ++ repeat hex 4 ++ [dash] ++ [version] ++ repeat hex 3 ++ [dash]
   ++ [variant] ++ repeat hex 3 ++ [dash] ++ repeat hex 12)%list.

(** [regex.test(s)] for a regex that is a sequence of character classes
    anchored at both ends. *)
Fixpoint test (classes : list (ascii -> bool)) (s : string) : bool :=
  match classes, s with
  | [], EmptyString => true
  | class :: classes', String c s' => (class c && test classes' s')%bool
  | _, _ => false
  end.

(** [validateJobId(jobId)] *)
Definition validateJobId (jobId : Js.value) : Js.completion Js.value :=
  if negb (Js.truthy jobId) then Js.Throw (Js.Error "Job ID is required")
  else
    let isNumeric := negb (Js.isNaN (Js.parseInt jobId)) in
    let isUUID := test uuidRegex (Js.to_string jobId) in
    if (negb isNumeric && negb isUUID)%bool
    then Js.Throw (Js.Error "Job ID must be a valid number or UUID")
    else Js.Return jobId.

(** [validatePagination(limit, offset)] *)
Definition validatePagination (limit offset : Js.value) : Js.completion Js.value :=
  let parsedLimit := Js.or (Js.parseInt limit) (Js.Num 50) in
  let parsedOffset := Js.or (Js.parseInt offset) (Js.Num 0) in
  if Js.gt parsedLimit (Js.Num 100)
  then Js.Throw (Js.Error "Limit cannot exceed 100")
  else if Js.lt parsedLimit (Js.Num 1)
  then Js.Throw (Js.Error "Limit must be at least 1")
  else if Js.lt parsedOffset (Js.Num 0)
  then Js.Throw (Js.Error "Offset must be non-negative")
  else Js.Return (Js.Obj [("limit", parsedLimit); ("offset", parsedOffset)]).

(** [['running', 'done', 'failed', 'pending'].includes(v)] *)
Definition is_state (v : Js.value) : bool :=
  existsb (Js.strict_eq_str v) ["running"; "done"; "failed"; "pending"].

(** [validateSearchParams(params)], [params] being an object. *)
Definition validateSearchParams (params : Js.value) : Js.value :=
  let validParams := Js.Obj [] in
  let validParams :=
    if Js.truthy (Js.field params "jobId")
    then Js.set validParams "jobId" (Js.field params "jobId")
    else validParams in
  let validParams :=
    if (Js.truthy (Js.field params "state") && is_state (Js.field params "state"))%bool
    then Js.set validParams "state" (Js.field params "state")
    else validParams in
  let validParams :=
    if Js.truthy (Js.field params "user_id")
    then Js.set validParams "user_id" (Js.field params "user_id")
    else validParams in
  if (Js.strict_eq_str (Js.field params "partial") "true"
      || Js.strict_eq_str (Js.field params "partial") "false")%bool
  then Js.set validParams "partial" (Js.field params "partial")
  else validParams.

(** [validateTaskId(taskId)] *)
Definition validateTaskId (taskId : Js.value) : Js.completion Js.value :=
  if negb (Js.truthy taskId) then Js.Throw (Js.Error "Task ID is required")
  else Js.Return taskId.

End Validator.

(** * The store and the pooled client

    [DatabaseService] talks to the store through a [pg] pool: [pool.query],
    [pool.connect], [client.query] and [client.release]. This module is the
    environment those calls run in: the three tables of the data model with
    the column types of the README's schema (the identifier of a Job is a
    BIGINT, its state a VARCHAR), the statements the service sends
    (recognised by their text), a fault plan that makes chosen calls fail,
    and PostgreSQL's rules: a parameter compared with a BIGINT column is
    read as a BIGINT, and the statement fails when it is none; the effects
    of a transaction reach other readers at COMMIT only; a statement that
    fails inside a transaction aborts it, after which the server refuses
    every statement until the transaction is ended. *)

Module Pg.

Record job : Type := {
  job_id : Z;
  job_state : string;
  job_error : Js.value;
  job_user_id : Js.value;
  job_reported : Js.value
}.

Record task : Type := {
  task_id : string;
  task_job_id : Z;
  task_state : string
}.

Record task_dep : Type := {
  dep_job_id : Z;
  pre_task_id : string;
  post_task_id : string
}.

Record store : Type := {
  jobs : list job;
  tasks : list task;
  task_deps : list task_dep
}.

(** ** Parameters of type BIGINT

    The driver sends every parameter as text: a string as it is, a number
    and a boolean through [toString()], [null] and [undefined] as NULL. An
    array or an object goes out in the driver's array notation or as JSON,
    either of which opens with a brace; of their text only that brace is
    faithful here. *)
Definition param_text (param : Js.value) : option string :=
  match param with
  | Js.Undefined | Js.Null => None
  | Js.Str s => Some s
  | Js.Arr _ | Js.Obj _ => Some ("{" ++ Js.to_string param ++ "}")
  | _ => Some (Js.to_string param)
  end.

Definition is_decimal (c : ascii) : bool :=
  let n := nat_of_ascii c in ((48 <=? n) && (n <=? 57))%nat%bool.

(** The decimal digits at the head of [s] as a number continuing [acc], and
    what follows them. *)
Fixpoint read_decimal (s : string) (acc : Z) : Z * string :=
  match s with
  | String c s' =>
      if is_decimal c
      then read_decimal s' (acc * 10 + (Z.of_nat (nat_of_ascii c) - 48))%Z
      else (acc, s)
  | EmptyString => (acc, s)
  end.

Definition quoted (s : string) : string := String "034" (s ++ String "034" "").

(** The server reading a text as a BIGINT: white space, an optional sign,
    decimal digits, white space, and a value of 64 bits. These are the
    literals every PostgreSQL from 12 on reads alike; from 16 on the server
    also reads [0x], [0o], [0b] and underscores, which are errors here. *)
Definition int8 (text : string) : Js.completion Z :=
  let invalid := Js.Throw (Js.Error ("invalid input syntax for type bigint: " ++ quoted text)) in
  let '(negative, s) := Js.strip_sign (Js.trim_start text) in
  match s with
  | String c _ =>
      if is_decimal c
      then
        let '(n, rest) := read_decimal s 0 in
        let k := (if negative then - n else n)%Z in
        if negb (Js.trim_start rest =? "") then invalid
        else if ((k <? -9223372036854775808) || (9223372036854775807 <? k))%Z%bool
        then Js.Throw (Js.Error ("value " ++ quoted text ++ " is out of range for type bigint"))
        else Js.Return k
      else invalid
  | EmptyString => invalid
  end.

(** A parameter where the statement has a BIGINT: NULL, a BIGINT, or the
    error the statement fails with. *)
Definition bigint (param : Js.value) : Js.completion (option Z) :=
  match param_text param with
  | None => Js.Return None
  | Some text =>
      match int8 text with
      | Js.Return k => Js.Return (Some k)
      | Js.Throw e => Js.Throw e
      end
  end.

(** A BIGINT column holding [column] compared with a parameter; NULL
    compares equal to nothing. *)
Definition matches (column : Z) (param : Js.value) : bool :=
  match bigint param with
  | Js.Return (Some k) => (column =? k)%Z
  | _ => false
  end.

(** The statements of [DatabaseService.js] that the claims involve. *)
Inductive statement : Type :=
| Begin
| Commit
| Rollback
| SelectJobId (id : Js.value)
| DeleteTaskDepsOfJob (id : Js.value)
| DeleteTasksOfJob (id : Js.value)
| DeleteJobReturningId (id : Js.value)
| CountJobsInState (state : Js.value)
| SelectJobIdsInState (state : Js.value)
| DeleteTaskDepsOfJobsInState (state : Js.value)
| DeleteTasksOfJobsInState (state : Js.value)
| DeleteJobsInState (state : Js.value)
| SelectTaskDepsOfJob (id : Js.value).

(** The statement a text and its parameters stand for (multi-line texts of
    the source are written on one line). *)
Definition parse (text : string) (params : list Js.value) : option statement :=
  match params with
  | [] =>
      if String.eqb text "BEGIN" then Some Begin
      else if String.eqb text "COMMIT" then Some Commit
      else if String.eqb text "ROLLBACK" then Some Rollback
      else None
  | [p] =>
      if String.eqb text "SELECT id FROM jobs WHERE id = $1"
      then Some (SelectJobId p)
      else if String.eqb text "DELETE FROM task_deps WHERE job_id = $1"
      then Some (DeleteTaskDepsOfJob p)
      else if String.eqb text "DELETE FROM tasks WHERE job_id = $1"
      then Some (DeleteTasksOfJob p)
      else if String.eqb text "DELETE FROM jobs WHERE id = $1 RETURNING id"
      then Some (DeleteJobReturningId p)
      else if String.eqb text "SELECT COUNT(*) as count FROM jobs WHERE state = $1"
      then Some (CountJobsInState p)
      else if String.eqb text "SELECT id FROM jobs WHERE state = $1"
      then Some (SelectJobIdsInState p)
      else if String.eqb text
                "DELETE FROM task_deps WHERE job_id IN (SELECT id FROM jobs WHERE state = $1)"
      then Some (DeleteTaskDepsOfJobsInState p)
      else if String.eqb text
                "DELETE FROM tasks WHERE job_id IN (SELECT id FROM jobs WHERE state = $1)"
      then Some (DeleteTasksOfJobsInState p)
      else if String.eqb text "DELETE FROM jobs WHERE state = $1"
      then Some (DeleteJobsInState p)
      else if String.eqb text "SELECT pre_task_id, post_task_id FROM task_deps WHERE job_id = $1"
      then Some (SelectTaskDepsOfJob p)
      else None
  | _ => None
  end.

Definition is_delete (text : string) : bool := String.prefix "DELETE" text.

(** ** What each statement does to a store *)

Definition has_id (id : Js.value) (j : job) : bool := matches (job_id j) id.

(** A VARCHAR column compared with a parameter. *)
Definition in_state (state : Js.value) (j : job) : bool :=
  match param_text state with
  | Some text => String.eqb (job_state j) text
  | None => false
  end.

(** The driver gives a BIGINT as a string. *)
Definition id_row (j : job) : Js.value := Js.Obj [("id", Js.Str (Js.dec_Z (job_id j)))].

Definition dep_row (d : task_dep) : Js.value :=
  Js.Obj [("pre_task_id", Js.Str (pre_task_id d)); ("post_task_id", Js.Str (post_task_id d))].

(** [job_id IN (SELECT id FROM jobs WHERE state = $1)] *)
Definition of_job_in_state (state : Js.value) (s : store) (id : Z) : bool :=
  existsb (fun j => (job_id j =? id)%Z) (filter (in_state state) (jobs s)).

Definition delete_task_deps (which : task_dep -> bool) (s : store) : store :=
  {| jobs := jobs s; tasks := tasks s;
     task_deps := filter (fun d => negb (which d)) (task_deps s) |}.

Definition delete_tasks (which : task -> bool) (s : store) : store :=
  {| jobs := jobs s; tasks := filter (fun t => negb (which t)) (tasks s);
     task_deps := task_deps s |}.

Definition delete_jobs (which : job -> bool) (s : store) : store :=
  {| jobs := filter (fun j => negb (which j)) (jobs s); tasks := tasks s;
     task_deps := task_deps s |}.

(** The error of a statement one of whose parameters is no BIGINT where the
    statement has one. *)
Definition rejected (st : statement) : option Js.error :=
  match st with
  | SelectJobId id | DeleteTaskDepsOfJob id | DeleteTasksOfJob id
  | DeleteJobReturningId id | SelectTaskDepsOfJob id =>
      match bigint id with
      | Js.Throw e => Some e
      | Js.Return _ => None
      end
  | _ => None
  end.

(** The rows a data statement returns and the store it leaves, for a
    statement that is not rejected. *)
Definition exec (st : statement) (s : store) : list Js.value * store :=
  match st with
  | Begin | Commit | Rollback => ([], s)
  | SelectJobId id => (map id_row (filter (has_id id) (jobs s)), s)
  | DeleteTaskDepsOfJob id =>
      ([], delete_task_deps (fun d => matches (dep_job_id d) id) s)
  | DeleteTasksOfJob id =>
      ([], delete_tasks (fun t => matches (task_job_id t) id) s)
  | DeleteJobReturningId id =>
      (map id_row (filter (has_id id) (jobs s)), delete_jobs (has_id id) s)
  | CountJobsInState state =>
      ([Js.Obj [("count", Js.Str (Js.dec (length (filter (in_state state) (jobs s)))))]], s)
  | SelectJobIdsInState state => (map id_row (filter (in_state state) (jobs s)), s)
  | DeleteTaskDepsOfJobsInState state =>
      ([], delete_task_deps (fun d => of_job_in_state state s (dep_job_id d)) s)
  | DeleteTasksOfJobsInState state =>
      ([], delete_tasks (fun t => of_job_in_state state s (task_job_id t)) s)
  | DeleteJobsInState state => ([], delete_jobs (in_state state) s)
  | SelectTaskDepsOfJob id =>
      (map dep_row (filter (fun d => matches (dep_job_id d) id) (task_deps s)), s)
  end.

(** ** The world a service call runs in *)

Inductive client_state : Type :=
| NoClient
| Idle
| InTransaction (work : store)
| Aborted.

(** One entry per call on the pool or the client. [visible] is the store as
    every other reader sees it once the call is over. *)
Inductive event : Type :=
| Connected (ok : bool)
| Queried (text : string) (params : list Js.value) (ok : bool) (visible : store)
| Released.

(** [faults] is the fault plan: its k-th entry says whether the k-th call on
    the pool or the client ([pool.connect], [pool.query], [client.query])
    fails, and with which message; calls past its end succeed. [calls]
    counts the calls made so far. *)
Record world : Type := {
  committed : store;
  client : client_state;
  faults : list (option string);
  calls : nat;
  journal : list event;
  console : list string
}.

(** A service call starts with no client checked out. *)
Definition start (s : store) (plan : list (option string)) : world :=
  {| committed := s; client := NoClient; faults := plan; calls := 0;
     journal := []; console := [] |}.

Definition set_committed (s : store) (w : world) : world :=
  {| committed := s; client := client w; faults := faults w; calls := calls w;
     journal := journal w; console := console w |}.

Definition set_client (c : client_state) (w : world) : world :=
  {| committed := committed w; client := c; faults := faults w; calls := calls w;
     journal := journal w; console := console w |}.

Definition next_fault (w : world) : option string := nth (calls w) (faults w) None.

(** The call is over: it is counted and entered in the journal. *)
Definition answered (e : event) (w : world) : world :=
  {| committed := committed w; client := client w; faults := faults w;
     calls := S (calls w); journal := (journal w ++ [e])%list; console := console w |}.

(** An asynchronous computation, awaited step by step. *)
Definition M (A : Type) : Type := world -> Js.completion A * world.

Definition ret {A : Type} (a : A) : M A := fun w => (Js.Return a, w).

Definition throw {A : Type} (e : Js.error) : M A := fun w => (Js.Throw e, w).

Definition bind {A B : Type} (m : M A) (k : A -> M B) : M B :=
  fun w =>
    match m w with
    | (Js.Return a, w') => k a w'
    | (Js.Throw e, w') => (Js.Throw e, w')
    end.

Definition lift {A : Type} (c : Js.completion A) : M A := fun w => (c, w).

(** [try { body } catch (error) { handler }] *)
Definition try_catch {A : Type} (body : M A) (handler : Js.error -> M A) : M A :=
  fun w =>
    match body w with
    | (Js.Return a, w') => (Js.Return a, w')
    | (Js.Throw e, w') => handler e w'
    end.

(** [try { body } catch (error) { handler } finally { finalizer }]: the
    finalizer runs on every exit path and, completing normally, leaves the
    completion of the try or catch block in place. *)
Definition try_catch_finally {A : Type}
  (body : M A) (handler : Js.error -> M A) (finalizer : M unit) : M A :=
  fun w =>
    match try_catch body handler w with
    | (c, w') =>
        match finalizer w' with
        | (Js.Return _, w'') => (c, w'')
        | (Js.Throw e, w'') => (Js.Throw e, w'')
        end
    end.

(** [console.log(line)] *)
Definition console_log (line : string) : M unit :=
  fun w =>
    (Js.Return tt,
     {| committed := committed w; client := client w; faults := faults w;
        calls := calls w; journal := journal w; console := (console w ++ [line])%list |}).

Definition aborted_message : string :=
  "current transaction is aborted, commands ignored until end of transaction block".

(** A statement the server has received. Data statements run on the working
    copy of the open transaction, or straight on the committed store when
    none is open, unless a parameter has the wrong type. In an aborted
    transaction only COMMIT and ROLLBACK are accepted, and both end it
    without committing anything. *)
Definition perform (st : statement) (w : world) : Js.completion (list Js.value) * world :=
  match client w, st with
  | Aborted, Commit => (Js.Return [], set_client Idle w)
  | Aborted, Rollback => (Js.Return [], set_client Idle w)
  | Aborted, _ => (Js.Throw (Js.Error aborted_message), w)
  | InTransaction _, Begin => (Js.Return [], w)
  | _, Begin => (Js.Return [], set_client (InTransaction (committed w)) w)
  | InTransaction work, Commit => (Js.Return [], set_client Idle (set_committed work w))
  | _, Commit => (Js.Return [], w)
  | InTransaction _, Rollback => (Js.Return [], set_client Idle w)
  | _, Rollback => (Js.Return [], w)
  | InTransaction work, _ =>
      match rejected st with
      | Some e => (Js.Throw e, w)
      | None =>
          (Js.Return (fst (exec st work)), set_client (InTransaction (snd (exec st work))) w)
      end
  | _, _ =>
      match rejected st with
      | Some e => (Js.Throw e, w)
      | None =>
          (Js.Return (fst (exec st (committed w))),
           set_committed (snd (exec st (committed w))) w)
      end
  end.

(** A call that failed: an open transaction is aborted. *)
Definition failed (w : world) : world :=
  match client w with
  | InTransaction _ => set_client Aborted w
  | _ => w
  end.

(** A statement sent on a connection in state [w]. *)
Definition send (text : string) (params : list Js.value) (w : world)
  : Js.completion (list Js.value) * world :=
  match next_fault w with
  | Some msg =>
      (Js.Throw (Js.Error msg),
       answered (Queried text params false (committed w)) (failed w))
  | None =>
      match parse text params with
      | Some st =>
          match perform st w with
          | (Js.Return rows, w') =>
              (Js.Return rows, answered (Queried text params true (committed w')) w')
          | (Js.Throw e, w') =>
              (Js.Throw e, answered (Queried text params false (committed w')) (failed w'))
          end
      | None =>
          (Js.Throw (Js.Error ("syntax error: " ++ text)),
           answered (Queried text params false (committed w)) (failed w))
      end
  end.

(** [await client.query(text, params)], giving [result.rows]. *)
Definition client_query (text : string) (params : list Js.value) : M (list Js.value) :=
  send text params.

(** [await this.pool.query(text, params)], giving [result.rows]: one
    statement on a connection of the pool that has no transaction open, so
    that it is committed at once; the client checked out, if any, is left as
    it is. *)
Definition pool_query (text : string) (params : list Js.value) : M (list Js.value) :=
  fun w =>
    match send text params (set_client Idle w) with
    | (c, w') => (c, set_client (client w) w')
    end.

(** [await this.pool.connect()] *)
Definition pool_connect : M unit :=
  fun w =>
    match next_fault w with
    | Some msg => (Js.Throw (Js.Error msg), answered (Connected false) w)
    | None => (Js.Return tt, answered (Connected true) (set_client Idle w))
    end.

(** [client.release()]: the client goes back to the pool; a transaction it
    left open is gone with it. *)
Definition client_release : M unit :=
  fun w =>
    (Js.Return tt,
     {| committed := committed w; client := NoClient; faults := faults w;
        calls := calls w; journal := (journal w ++ [Released])%list;
        console := console w |}).

(** The stores other readers saw, call after call. *)
Definition seen (w : world) : list store :=
  flat_map (fun e => match e with Queried _ _ _ visible => [visible] | _ => [] end)
           (journal w).

(** The statements sent, with whether each one succeeded. *)
Definition sent (w : world) : list (string * bool) :=
  flat_map (fun e => match e with Queried text _ ok _ => [(text, ok)] | _ => [] end)
           (journal w).

End Pg.

Declare Scope async_scope.
Delimit Scope async_scope with async.
Notation "x <- c1 ;; c2" := (Pg.bind c1 (fun x => c2))
  (at level 61, c1 at next level, right associativity) : async_scope.
Notation "' pat <- c1 ;; c2" := (Pg.bind c1 (fun x => match x with pat => c2 end))
  (at level 61, pat pattern, c1 at next level, right associativity) : async_scope.
Notation "c1 ;; c2" := (Pg.bind c1 (fun _ => c2))
  (at level 61, right associativity) : async_scope.

(** * services/DatabaseService.js *)

Module DatabaseService.
Import Pg.
Local Open Scope async_scope.

(** [getJobDependencies(jobId)] *)
Definition getJobDependencies (jobId : Js.value) : M Js.value :=
  result <- pool_query "SELECT pre_task_id, post_task_id FROM task_deps WHERE job_id = $1"
                       [jobId] ;;
  ret (Js.Obj [("dependencies", Js.Arr result);
               ("count", Js.Num (Z.of_nat (length result)))]).

(** [deleteJob(jobId)] *)
Definition deleteJob (jobId : Js.value) : M Js.value :=
  client <- pool_connect ;;
  try_catch_finally
    (_ <- client_query "BEGIN" [] ;;
     jobCheck <- client_query "SELECT id FROM jobs WHERE id = $1" [jobId] ;;
     if Nat.eqb (length jobCheck) 0
     then throw (Js.Error ("Job with ID " ++ Js.to_string jobId ++ " does not exist"))
     else
       _ <- try_catch
              (_ <- client_query "DELETE FROM task_deps WHERE job_id = $1" [jobId] ;; ret tt)
              (fun error =>
                 console_log "task_deps table or job_id column may not exist, skipping...") ;;
       _ <- client_query "DELETE FROM tasks WHERE job_id = $1" [jobId] ;;
       deleteResult <- client_query "DELETE FROM jobs WHERE id = $1 RETURNING id" [jobId] ;;
       _ <- client_query "COMMIT" [] ;;
       id <- lift (Js.get (Js.first deleteResult) "id") ;;
       ret (Js.Obj [("deletedJobId", id)]))
    (fun error => _ <- client_query "ROLLBACK" [] ;; throw error)
    client_release.

(** The body shared, word for word, by [clearCompletedJobs] ([state] is
    'done', [label] is 'completed') and [clearFailedJobs] ('failed',
    'failed'). *)
Definition clearJobsInState (state label : string) : M Js.value :=
  client <- pool_connect ;;
  try_catch_finally
    (_ <- client_query "BEGIN" [] ;;
     countResult <- client_query "SELECT COUNT(*) as count FROM jobs WHERE state = $1"
                                 [Js.Str state] ;;
     count <- lift (Js.get (Js.first countResult) "count") ;;
     let jobsCount := Js.parseInt count in
     if Js.strict_eq_num jobsCount 0
     then
       _ <- client_query "COMMIT" [] ;;
       ret (Js.Obj [("deletedJobsCount", Js.Num 0);
                    ("message", Js.Str ("No " ++ label ++ " jobs found to delete"))])
     else
       jobIdsResult <- client_query "SELECT id FROM jobs WHERE state = $1" [Js.Str state] ;;
       let deletedJobIds := map (fun row => Js.field row "id") jobIdsResult in
       _ <- try_catch
              (_ <- client_query
                      "DELETE FROM task_deps WHERE job_id IN (SELECT id FROM jobs WHERE state = $1)"
                      [Js.Str state] ;;
               ret tt)
              (fun error =>
                 console_log "task_deps table or job_id column may not exist, skipping...") ;;
       _ <- client_query
              "DELETE FROM tasks WHERE job_id IN (SELECT id FROM jobs WHERE state = $1)"
              [Js.Str state] ;;
       _ <- client_query "DELETE FROM jobs WHERE state = $1" [Js.Str state] ;;
       _ <- client_query "COMMIT" [] ;;
       ret (Js.Obj [("deletedJobsCount", jobsCount);
                    ("deletedJobIds", Js.Arr deletedJobIds);
                    ("message",
                     Js.Str ("Successfully deleted " ++ Js.to_string jobsCount
                             ++ " " ++ label ++ " job(s)"))]))
    (fun error => _ <- client_query "ROLLBACK" [] ;; throw error)
    client_release.

(** [clearCompletedJobs()] *)
Definition clearCompletedJobs : M Js.value := clearJobsInState "done" "completed".

(** [clearFailedJobs()] *)
Definition clearFailedJobs : M Js.value := clearJobsInState "failed" "failed".

(** ** Listings

    [getJobsWithStats] and [getStreams] validate their arguments, put the
    statement together and send it with [this.pool.query]. The two
    definitions below are what each computes up to that call: the statement
    and its parameters, or the error thrown before anything is sent. Their
    arguments are objects, as the routes pass [req.query]. *)

Definition jobsWithStatsFields : list string :=
  [ "j.id"; "j.state"; "j.error"; "j.user_id"; "j.reported";
    "COUNT(t.task_id) as task_count";
    "COUNT(CASE WHEN t.state = 'done' THEN 1 END) as completed_tasks";
    "COUNT(CASE WHEN t.state = 'running' THEN 1 END) as running_tasks";
    "COUNT(CASE WHEN t.state = 'pending' THEN 1 END) as pending_tasks";
    "COUNT(CASE WHEN t.state = 'failed' THEN 1 END) as failed_tasks" ].

(** [getJobsWithStats(searchParams, pagination)], up to
    [queryBuilder.build()]: the calls it makes on a fresh builder, in the
    order it makes them, and [build()]. *)
Definition getJobsWithStats_request (searchParams pagination : Js.value)
  : Js.completion QueryBuilder.built :=
  match Validator.validatePagination (Js.field pagination "limit")
                                     (Js.field pagination "offset") with
  | Js.Throw error => Js.Throw error
  | Js.Return page =>
      let limit := Js.field page "limit" in
      let offset := Js.field page "offset" in
      let validSearchParams := Validator.validateSearchParams searchParams in
      QueryBuilder.run
        ([ QueryBuilder.Select (QueryBuilder.Array jobsWithStatsFields);
           QueryBuilder.From "jobs j";
           QueryBuilder.Join "tasks t" "j.id = t.job_id" None;
           QueryBuilder.GroupBy
             (QueryBuilder.Array ["j.id"; "j.state"; "j.error"; "j.user_id"; "j.reported"]);
           QueryBuilder.OrderBy "j.id" (Some "DESC");
           QueryBuilder.Limit limit;
           QueryBuilder.Offset offset ]
         ++ (if Js.truthy (Js.field validSearchParams "jobId")
             then
               [ if Js.strict_eq_str (Js.field validSearchParams "partial") "true"
                 then QueryBuilder.Where "j.id::text ILIKE ?"
                        (Js.Str ("%" ++ Js.to_string (Js.field validSearchParams "jobId")
                                 ++ "%"))
                 else QueryBuilder.Where "j.id = ?" (Js.field validSearchParams "jobId") ]
             else [])
         ++ (if Js.truthy (Js.field validSearchParams "state")
             then [ QueryBuilder.Where "j.state = ?" (Js.field validSearchParams "state") ]
             else [])
         ++ (if Js.truthy (Js.field validSearchParams "user_id")
             then [ QueryBuilder.Where "j.user_id = ?" (Js.field validSearchParams "user_id") ]
             else []))%list
  end.

(** [getStreams(pagination)], up to [this.pool.query(query, [limit, offset])]
    (the text of the statement is written on one line). *)
Definition getStreams_request (pagination : Js.value) : Js.completion QueryBuilder.built :=
  match Validator.validatePagination (Js.field pagination "limit")
                                     (Js.field pagination "offset") with
  | Js.Throw error => Js.Throw error
  | Js.Return page =>
      Js.Return
        {| QueryBuilder.query :=
             "SELECT id, job_id, created_at, updated_at FROM streams ORDER BY created_at DESC LIMIT $1 OFFSET $2";
           QueryBuilder.built_params := [Js.field page "limit"; Js.field page "offset"] |}
  end.

End DatabaseService.
(** * Timers of the event loop

    [setInterval], [setTimeout] and [clearInterval] as Node.js provides them,
    on a clock in milliseconds. A delay below 1 or above 2147483647 is set
    to 1. The loop records which timer fired when; both callbacks that
    [AutoClearService] arms call [performAutoClear], so that a firing is a
    sweep. *)

Module Timers.

Record timer : Type := {
  id : nat;
  due : Z;
  every : option Z
}.

Record firing : Type := {
  at_time : Z;
  by_timer : nat
}.

Record loop : Type := {
  now : Z;
  armed : list timer;
  next_id : nat;
  fired : list firing
}.

Definition boot : loop := {| now := 0; armed := []; next_id := 1; fired := [] |}.

Definition delay (ms : Z) : Z :=
  if ((1 <=? ms) && (ms <=? 2147483647))%Z%bool then ms else 1%Z.

Definition arm (ms : Z) (repeating : bool) (l : loop) : nat * loop :=
  (next_id l,
   {| now := now l;
      armed := (armed l ++ [ {| id := next_id l; due := now l + delay ms;
                                every := if repeating then Some (delay ms) else None |} ])%list;
      next_id := S (next_id l);
      fired := fired l |}).

(** [setInterval(callback, ms)], giving the timer's handle. *)
Definition setInterval (ms : Z) (l : loop) : nat * loop := arm ms true l.

(** [setTimeout(callback, ms)] *)
Definition setTimeout (ms : Z) (l : loop) : nat * loop := arm ms false l.

(** [clearInterval(handle)] *)
Definition clearInterval (handle : nat) (l : loop) : loop :=
  {| now := now l;
     armed := filter (fun t => negb (Nat.eqb (id t) handle)) (armed l);
     next_id := next_id l;
     fired := fired l |}.

(** The firings of one timer up to time [t] included. *)
Definition firings_of (t : Z) (tm : timer) : list firing :=
  if (due tm <=? t)%Z
  then match every tm with
       | None => [ {| at_time := due tm; by_timer := id tm |} ]
       | Some p =>
           map (fun k => {| at_time := due tm + Z.of_nat k * p; by_timer := id tm |})
               (seq 0 (S (Z.to_nat ((t - due tm) / p))))
       end
  else [].

(** What is left of one timer after time [t]. *)
Definition rearm (t : Z) (tm : timer) : list timer :=
  if (due tm <=? t)%Z
  then match every tm with
       | None => []
       | Some p =>
           [ {| id := id tm; due := due tm + ((t - due tm) / p + 1) * p; every := Some p |} ]
       end
  else [tm].

(** Firings in the order of their times; timers due together fire in the
    order they were armed. *)
Fixpoint insert (f : firing) (l : list firing) : list firing :=
  match l with
  | g :: l' => if (at_time f <=? at_time g)%Z then f :: l else g :: insert f l'
  | [] => [f]
  end.

Definition in_order (l : list firing) : list firing := fold_right insert [] l.

(** The loop runs for [dt] milliseconds. *)
Definition advance (dt : Z) (l : loop) : loop :=
  let t := (now l + Z.max 0 dt)%Z in
  {| now := t;
     armed := flat_map (rearm t) (armed l);
     next_id := next_id l;
     fired := (fired l ++ in_order (flat_map (firings_of t) (armed l)))%list |}.

End Timers.

(** * services/AutoClearService.js *)

Module AutoClearService.
Import Pg.
Local Open Scope async_scope.

(** [config.autoClear] *)
Record config : Type := {
  enabled : bool;
  interval : Z;
  clearCompleted : bool;
  clearFailed : bool
}.

(** The fields the methods assign, with the event loop they arm timers on.
    [intervalId] is [null] or the handle [setInterval] gave. *)
Record t : Type := {
  intervalId : option nat;
  isRunning : bool;
  timers : Timers.loop
}.

(** [new AutoClearService(dbService, config)] on the loop [l]. *)
Definition new (l : Timers.loop) : t :=
  {| intervalId := None; isRunning := false; timers := l |}.

(** [start()] (its console output is left out). *)
Definition start (cfg : config) (this : t) : t :=
  if negb (enabled cfg) then this
  else if isRunning this then this
  else
    let '(handle, l) := Timers.setInterval (interval cfg) (timers this) in
    let '(_, l) := Timers.setTimeout 5000 l in
    {| intervalId := Some handle; isRunning := true; timers := l |}.

(** [stop()] (its console output is left out). *)
Definition stop (this : t) : t :=
  match intervalId this with
  | Some handle =>
      {| intervalId := None; isRunning := false;
         timers := Timers.clearInterval handle (timers this) |}
  | None => this
  end.

(** Time passes on the loop of the service. *)
Definition wait (dt : Z) (this : t) : t :=
  {| intervalId := intervalId this; isRunning := isRunning this;
     timers := Timers.advance dt (timers this) |}.

(** The sweeps fired so far. *)
Definition sweeps (this : t) : list Timers.firing := Timers.fired (timers this).

(** [console.error(label, message)], on the same console. *)
Definition console_error (line : string) : M unit := console_log line.

(** One branch of [performAutoClear]: lines 63-71 for the completed Jobs,
    lines 76-84 for the failed ones. [results] is mutated in place, so an
    error thrown after [results[key] = result] finds that property set. *)
Definition branch (clear : M Js.value) (key label : string)
  (totalCleared results : Js.value) : M (Js.value * Js.value) :=
  let handler (results : Js.value) (error : Js.error) : M (Js.value * Js.value) :=
    _ <- console_error ("Error clearing " ++ label ++ " jobs: " ++ Js.message error) ;;
    ret (totalCleared, Js.set results (key ++ "Error") (Js.Str (Js.message error))) in
  try_catch
    (result <- clear ;;
     let results := Js.set results key result in
     try_catch
       (count <- lift (Js.get result "deletedJobsCount") ;;
        let totalCleared := Js.add totalCleared (Js.or count (Js.Num 0)) in
        _ <- console_log ("Cleared " ++ Js.to_string (Js.or count (Js.Num 0))
                          ++ " " ++ label ++ " jobs") ;;
        ret (totalCleared, results))
       (handler results))
    (handler results).

(** [performAutoClear()] (the pictographs of its console lines are left
    out). *)
Definition performAutoClear (cfg : config) : M Js.value :=
  try_catch
    (_ <- console_log "Performing auto-clear..." ;;
     let totalCleared := Js.Num 0 in
     let results := Js.Obj [] in
     '(totalCleared, results) <-
        (if clearCompleted cfg
         then branch DatabaseService.clearCompletedJobs "completed" "completed"
                     totalCleared results
         else ret (totalCleared, results)) ;;
     '(totalCleared, results) <-
        (if clearFailed cfg
         then branch DatabaseService.clearFailedJobs "failed" "failed" totalCleared results
         else ret (totalCleared, results)) ;;
     _ <- (if Js.gt totalCleared (Js.Num 0)
           then console_log ("Auto-clear completed: " ++ Js.to_string totalCleared
                             ++ " total jobs cleared")
           else console_log "Auto-clear completed: No jobs to clear") ;;
     ret results)
    (fun error =>
       _ <- console_error ("Auto-clear service error: " ++ Js.message error) ;;
       throw error).


(** ** Call sequences on a service

    What the server does with its one instance: [start()], [stop()], and
    the event loop running in between. *)
Inductive call : Type :=
| Start
| Stop
| Wait (dt : Z).

Definition apply (cfg : config) (this : t) (c : call) : t :=
  match c with
  | Start => start cfg this
  | Stop => stop this
  | Wait dt => wait dt this
  end.

(** The calls made in order on a new service, on a loop with no timer. *)
Definition run (cfg : config) (calls : list call) : t :=
  fold_left (apply cfg) calls (new Timers.boot).

End AutoClearService.

(** * middleware/errorHandler.js *)

Module ErrorHandler.

(** [String.prototype.includes] *)
Fixpoint includes (pattern s : string) : bool :=
  (String.prefix pattern s
   || match s with
      | String _ s' => includes pattern s'
      | EmptyString => false
      end)%bool.

(** What the handler answers: [res.status(status).json(body)]. *)
Record response : Type := { status : Z; body : Js.value }.

(** [handle(error, req, res, next)] (its [console.error] is left out).
    [code] is [error.code], which is [undefined] on an error made by
    [new Error(message)]; [nodeEnv] is [config.nodeEnv]. *)
Definition handle (nodeEnv : string) (code : Js.value) (error : Js.error) : response :=
  if Js.strict_eq_str code "ECONNREFUSED"
  then {| status := 503;
          body := Js.Obj [("error", Js.Str "Database connection failed");
                          ("message", Js.Str "Unable to connect to database")] |}
  else if Js.strict_eq_str code "23505"
  then {| status := 409;
          body := Js.Obj [("error", Js.Str "Conflict");
                          ("message", Js.Str "Resource already exists")] |}
  else if (Js.truthy (Js.Str (Js.message error))
           && (includes "required" (Js.message error)
               || includes "must be" (Js.message error)))%bool
  then {| status := 400;
          body := Js.Obj [("error", Js.Str "Validation Error");
                          ("message", Js.Str (Js.message error))] |}
  else {| status := 500;
          body := Js.Obj [("error", Js.Str "Internal server error");
                          ("message",
                           Js.Str (if String.eqb nodeEnv "development"
                                   then Js.message error
                                   else "Something went wrong"))] |}.

End ErrorHandler.

(** * Notions used to state the properties *)

(** The call sequence of the specification's example. *)
Definition example_calls : list QueryBuilder.call :=
  [ QueryBuilder.Select (QueryBuilder.Array ["id"]);
    QueryBuilder.From "jobs";
    QueryBuilder.Where "state = ?" (Js.Str "done");
    QueryBuilder.Limit (Js.Num 10);
    QueryBuilder.Offset (Js.Num 5) ].

Definition example_query : string :=
  "SELECT id FROM jobs WHERE state = $1 LIMIT $2 OFFSET $3".

(** ** The statement a call sequence asks for

    What [build()] is to return, read off the call sequence in the words of
    the specification. Nothing here uses the builder or its helpers. *)

(** The positional marker of the [k]-th parameter: a dollar sign and [k] in
    decimal. *)
Definition positional (k : nat) : string :=
  "$" ++ NilEmpty.string_of_uint (Nat.to_uint k).

(** The text before the first '?' of a template and the text after it. *)
Fixpoint split_placeholder (template : string) : option (string * string) :=
  match template with
  | String c rest =>
      if Ascii.eqb c "?" then Some ("", rest)
      else match split_placeholder rest with
           | Some (pre, post) => Some (String c pre, post)
           | None => None
           end
  | EmptyString => None
  end.

(** A value is supplied unless it is [null] or left out. *)
Definition supplied (v : Js.value) : bool :=
  match v with
  | Js.Undefined | Js.Null => false
  | _ => true
  end.

(** A limit or an offset is set unless it is [null]: the builder starts
    with [null] and [limit(v)] stores [v] as it is. *)
Definition supplied_or_undefined (v : Js.value) : bool :=
  match v with
  | Js.Null => false
  | _ => true
  end.

(** The values supplied to [where], in call order: the parameters. *)
Fixpoint supplied_values (calls : list QueryBuilder.call) : list Js.value :=
  match calls with
  | QueryBuilder.Where _ v :: rest =>
      if supplied v then v :: supplied_values rest else supplied_values rest
  | _ :: rest => supplied_values rest
  | [] => []
  end.

(** The conditions in call order, the first of them numbered [k]: the
    condition that comes with the next value supplied carries the next
    marker in place of its first '?'. *)
Fixpoint conditions (k : nat) (calls : list QueryBuilder.call) : list string :=
  match calls with
  | QueryBuilder.Where template v :: rest =>
      if supplied v
      then match split_placeholder template with
           | Some (pre, post) => pre ++ positional k ++ post
           | None => template
           end :: conditions (S k) rest
      else template :: conditions k rest
  | _ :: rest => conditions k rest
  | [] => []
  end.

(** The fields of the last [select], if any. *)
Definition selected (calls : list QueryBuilder.call) : option (list string) :=
  fold_left (fun acc c =>
               match c with
               | QueryBuilder.Select (QueryBuilder.One f) => Some [f]
               | QueryBuilder.Select (QueryBuilder.Array fs) => Some fs
               | _ => acc
               end) calls None.

(** The table of the last [from]. *)
Definition table (calls : list QueryBuilder.call) : string :=
  fold_left (fun acc c => match c with QueryBuilder.From t => t | _ => acc end) calls "".

(** One JOIN per [join], LEFT unless the call names another type. *)
Definition joined (calls : list QueryBuilder.call) : list string :=
  flat_map (fun c =>
              match c with
              | QueryBuilder.Join t cond type =>
                  [" " ++ match type with Some ty => ty | None => "LEFT" end
                   ++ " JOIN " ++ t ++ " ON " ++ cond]
              | _ => []
              end) calls.

(** The fields of the last [groupBy]. *)
Definition grouped (calls : list QueryBuilder.call) : list string :=
  fold_left (fun acc c =>
               match c with
               | QueryBuilder.GroupBy (QueryBuilder.One f) => [f]
               | QueryBuilder.GroupBy (QueryBuilder.Array fs) => fs
               | _ => acc
               end) calls [].

(** One term per [orderBy], ascending unless the call says otherwise. *)
Definition ordered (calls : list QueryBuilder.call) : list string :=
  flat_map (fun c =>
              match c with
              | QueryBuilder.OrderBy f dir =>
                  [f ++ " " ++ match dir with Some d => d | None => "ASC" end]
              | _ => []
              end) calls.

(** A clause that is left out when it has no terms. *)
Definition clause (keyword separator : string) (terms : list string) : string :=
  match terms with
  | [] => ""
  | _ :: _ => keyword ++ String.concat separator terms
  end.

(** The statement for the fields [fs]: the clauses in the order of SQL, the
    markers of the where-values first, then the marker of the limit, then
    the marker of the offset. *)
Definition statement (fs : list string) (calls : list QueryBuilder.call) : string :=
  let n := length (supplied_values calls) in
  let lim := QueryBuilder.last_limit calls in
  let off := QueryBuilder.last_offset calls in
  "SELECT " ++ String.concat ", " fs ++ " FROM " ++ table calls
  ++ String.concat "" (joined calls)
  ++ clause " WHERE " " AND " (conditions 1 calls)
  ++ clause " GROUP BY " ", " (grouped calls)
  ++ clause " ORDER BY " ", " (ordered calls)
  ++ (if supplied_or_undefined lim then " LIMIT " ++ positional (n + 1) else "")
  ++ (if supplied_or_undefined off
      then " OFFSET " ++ positional (if supplied_or_undefined lim then n + 2 else n + 1)
      else "").

(** The parameters that go with it: the where-values, then the limit, then
    the offset. *)
Definition parameters (calls : list QueryBuilder.call) : list Js.value :=
  let lim := QueryBuilder.last_limit calls in
  let off := QueryBuilder.last_offset calls in
  (supplied_values calls
   ++ (if supplied_or_undefined lim then [lim] else [])
   ++ (if supplied_or_undefined off then [off] else []))%list.

(** A Job row with this identifier exists. *)
Definition job_exists (jobId : Js.value) (s : Pg.store) : bool :=
  existsb (Pg.has_id jobId) (Pg.jobs s).

(** The store without the Job [jobId], its Tasks and its TaskDependency rows. *)
Definition without_job (jobId : Js.value) (s : Pg.store) : Pg.store :=
  {| Pg.jobs := filter (fun j => negb (Pg.matches (Pg.job_id j) jobId)) (Pg.jobs s);
     Pg.tasks := filter (fun t => negb (Pg.matches (Pg.task_job_id t) jobId)) (Pg.tasks s);
     Pg.task_deps :=
       filter (fun d => negb (Pg.matches (Pg.dep_job_id d) jobId)) (Pg.task_deps s) |}.

(** The statements of [deleteJob], in the order of the source. *)
Definition deleteJob_script : list string :=
  [ "BEGIN";
    "SELECT id FROM jobs WHERE id = $1";
    "DELETE FROM task_deps WHERE job_id = $1";
    "DELETE FROM tasks WHERE job_id = $1";
    "DELETE FROM jobs WHERE id = $1 RETURNING id";
    "COMMIT" ].

(** None of the first [n] calls fails under the plan. *)
Definition fault_free (n : nat) (plan : list (option string)) : bool :=
  forallb (fun k => match nth k plan None with None => true | Some _ => false end) (seq 0 n).

(** A store with three Jobs, their Tasks and one precedence edge. *)
Definition example_store : Pg.store :=
  {| Pg.jobs :=
       [ {| Pg.job_id := 1; Pg.job_state := "done"; Pg.job_error := Js.Null;
            Pg.job_user_id := Js.Str "u1"; Pg.job_reported := Js.Null |};
         {| Pg.job_id := 2; Pg.job_state := "failed"; Pg.job_error := Js.Str "timeout";
            Pg.job_user_id := Js.Str "u2"; Pg.job_reported := Js.Null |};
         {| Pg.job_id := 3; Pg.job_state := "failed"; Pg.job_error := Js.Str "oom";
            Pg.job_user_id := Js.Str "u1"; Pg.job_reported := Js.Null |} ];
     Pg.tasks :=
       [ {| Pg.task_id := "a"; Pg.task_job_id := 1; Pg.task_state := "done" |};
         {| Pg.task_id := "b"; Pg.task_job_id := 1; Pg.task_state := "done" |};
         {| Pg.task_id := "c"; Pg.task_job_id := 2; Pg.task_state := "failed" |} ];
     Pg.task_deps :=
       [ {| Pg.dep_job_id := 1; Pg.pre_task_id := "a"; Pg.post_task_id := "b" |} ] |}.

(** The store without the Jobs in state [state], their Tasks and their
    TaskDependency rows. *)
Definition without_jobs_in_state (state : string) (s : Pg.store) : Pg.store :=
  {| Pg.jobs := filter (fun j => negb (Pg.in_state (Js.Str state) j)) (Pg.jobs s);
     Pg.tasks :=
       filter (fun t => negb (Pg.of_job_in_state (Js.Str state) s (Pg.task_job_id t)))
              (Pg.tasks s);
     Pg.task_deps :=
       filter (fun d => negb (Pg.of_job_in_state (Js.Str state) s (Pg.dep_job_id d)))
              (Pg.task_deps s) |}.

(** What [clearCompletedJobs] and [clearFailedJobs] return. *)
Definition nothing_cleared (label : string) : Js.value :=
  Js.Obj [("deletedJobsCount", Js.Num 0);
          ("message", Js.Str ("No " ++ label ++ " jobs found to delete"))].

Definition cleared (label : string) (deleted : list Pg.job) : Js.value :=
  Js.Obj [("deletedJobsCount", Js.Num (Z.of_nat (length deleted)));
          ("deletedJobIds", Js.Arr (map (fun j => Js.Str (Js.dec_Z (Pg.job_id j))) deleted));
          ("message",
           Js.Str ("Successfully deleted "
                   ++ Js.to_string (Js.Num (Z.of_nat (length deleted)))
                   ++ " " ++ label ++ " job(s)"))].

(** What [getJobDependencies] returns for the rows the store holds. *)
Definition dependencies_of (jobId : Js.value) (s : Pg.store) : list Js.value :=
  map Pg.dep_row (filter (fun d => Pg.matches (Pg.dep_job_id d) jobId) (Pg.task_deps s)).

(** A configuration with retention enabled and both branches on, sweeping
    every hour. *)
Definition example_config : AutoClearService.config :=
  {| AutoClearService.enabled := true; AutoClearService.interval := 3600000;
     AutoClearService.clearCompleted := true; AutoClearService.clearFailed := true |}.

(** The same, sweeping every second. *)
Definition brisk_config : AutoClearService.config :=
  {| AutoClearService.enabled := true; AutoClearService.interval := 1000;
     AutoClearService.clearCompleted := true; AutoClearService.clearFailed := true |}.

(** The period the event loop gives a recurring timer asked for every
    [interval] milliseconds: the interval itself when it lies between 1 and
    2147483647, and 1 otherwise. *)
Definition period (interval : Z) : Z :=
  if ((1 <=? interval) && (interval <=? 2147483647))%Z%bool then interval else 1%Z.

(** The property of the result that holds the outcome of a branch: the value
    the branch returned, or the message of the error it threw. *)
Definition slot (key : string) (c : Js.completion Js.value) : string * Js.value :=
  match c with
  | Js.Return result => (key, result)
  | Js.Throw e => (key ++ "Error", Js.Str (Js.message e))
  end.

(** The count a branch reports. *)
Definition cleared_count (c : Js.completion Js.value) : Js.value :=
  match c with
  | Js.Return result => Js.or (Js.field result "deletedJobsCount") (Js.Num 0)
  | Js.Throw _ => Js.Num 0
  end.

(** The running total after a branch: a branch that threw adds nothing. *)
Definition tally (total : Js.value) (c : Js.completion Js.value) : Js.value :=
  match c with
  | Js.Return _ => Js.add total (cleared_count c)
  | Js.Throw _ => total
  end.

(** The console line of a branch. *)
Definition report (label : string) (c : Js.completion Js.value) : string :=
  match c with
  | Js.Return _ => "Cleared " ++ Js.to_string (cleared_count c) ++ " " ++ label ++ " jobs"
  | Js.Throw e => "Error clearing " ++ label ++ " jobs: " ++ Js.message e
  end.

Definition logged (line : string) (w : Pg.world) : Pg.world := snd (Pg.console_log line w).

(** The console line that closes a sweep. *)
Definition total_line (total : Js.value) : string :=
  if Js.gt total (Js.Num 0)
  then "Auto-clear completed: " ++ Js.to_string total ++ " total jobs cleared"
  else "Auto-clear completed: No jobs to clear".

(** Which conditions [getJobsWithStats] adds for these search parameters:
    a condition on the identifier, whether it is a partial match, a
    condition on the state, a condition on the user. *)
Definition search_shape (searchParams : Js.value) : bool * bool * bool * bool :=
  let valid := Validator.validateSearchParams searchParams in
  (Js.truthy (Js.field valid "jobId"),
   Js.strict_eq_str (Js.field valid "partial") "true",
   Js.truthy (Js.field valid "state"),
   Js.truthy (Js.field valid "user_id")).

(** The text of the listing of Jobs searched by identifier. *)
Definition jobs_by_id_text : string :=
  "SELECT j.id, j.state, j.error, j.user_id, j.reported, COUNT(t.task_id) as task_count, COUNT(CASE WHEN t.state = 'done' THEN 1 END) as completed_tasks, COUNT(CASE WHEN t.state = 'running' THEN 1 END) as running_tasks, COUNT(CASE WHEN t.state = 'pending' THEN 1 END) as pending_tasks, COUNT(CASE WHEN t.state = 'failed' THEN 1 END) as failed_tasks FROM jobs j LEFT JOIN tasks t ON j.id = t.job_id WHERE j.id = $1 GROUP BY j.id, j.state, j.error, j.user_id, j.reported ORDER BY j.id DESC LIMIT $2 OFFSET $3".

(** The handles of the recurring timers armed on a loop. *)
Definition recurring_timers (l : Timers.loop) : list nat :=
  map Timers.id
      (filter (fun tm => match Timers.every tm with Some _ => true | None => false end)
              (Timers.armed l)).

(** Every Task and every dependency row of the store belongs to a Job of
    the store. *)
Definition consistent (s : Pg.store) : bool :=
  (forallb (fun t => existsb (fun j => (Pg.job_id j =? Pg.task_job_id t)%Z) (Pg.jobs s))
           (Pg.tasks s)
   && forallb (fun d => existsb (fun j => (Pg.job_id j =? Pg.dep_job_id d)%Z) (Pg.jobs s))
              (Pg.task_deps s))%bool.

(** * Properties of the JavaScript built-ins *)

Section JsFacts.

Lemma parse_digits_of_uint (d : uint) : forall a : nat,
  Js.parse_digits 10 (NilEmpty.string_of_uint d) (Some (Z.of_nat a))
  = Some (Z.of_nat (Nat.of_uint_acc d a)).
Proof.
  induction d; intros a; cbn [NilEmpty.string_of_uint Js.parse_digits Nat.of_uint_acc];
    try reflexivity;
    match goal with
    | |- context [Js.digit_of ?c] =>
        let v := eval vm_compute in (Js.digit_of c) in
        change (Js.digit_of c) with v
    end;
    cbv beta iota;
    match goal with
    | |- context [(?k <? 10)%Z] => change (k <? 10)%Z with true
    end;
    cbv beta iota; rewrite <- IHd; do 2 f_equal; rewrite Nat.tail_mul_spec; lia.
Qed.

Lemma revapp_not_nil (d acc : uint) : acc <> Nil -> revapp d acc <> Nil.
Proof.
  revert acc. induction d; intros acc H; cbn; auto; apply IHd; discriminate.
Qed.

Lemma little_succ_not_nil (d : uint) : Little.succ d <> Nil.
Proof. destruct d; cbn; discriminate. Qed.

Lemma to_little_uint_not_nil (n : nat) : forall acc : uint,
  acc <> Nil -> Nat.to_little_uint n acc <> Nil.
Proof.
  induction n; intros acc H; cbn; auto. apply IHn, little_succ_not_nil.
Qed.

Lemma to_uint_not_nil (n : nat) : Nat.to_uint n <> Nil.
Proof.
  unfold Nat.to_uint, rev.
  pose proof (to_little_uint_not_nil n zero) as H.
  destruct (Nat.to_little_uint n zero) eqn:E;
    [ exfalso; apply H; [discriminate | reflexivity] | .. ];
    cbn; apply revapp_not_nil; discriminate.
Qed.

Lemma trim_start_of_uint (d : uint) :
  Js.trim_start (NilEmpty.string_of_uint d) = NilEmpty.string_of_uint d.
Proof. destruct d; reflexivity. Qed.

Lemma strip_sign_of_uint (d : uint) :
  Js.strip_sign (NilEmpty.string_of_uint d) = (false, NilEmpty.string_of_uint d).
Proof. destruct d; reflexivity. Qed.

Lemma strip_radix_of_uint (d : uint) :
  Js.strip_radix (NilEmpty.string_of_uint d) = (10%Z, NilEmpty.string_of_uint d).
Proof. destruct d as [|d|d|d|d|d|d|d|d|d|d]; try reflexivity; destruct d; reflexivity. Qed.

Lemma parse_digits_of_uint_start (d : uint) :
  d <> Nil ->
  Js.parse_digits 10 (NilEmpty.string_of_uint d) None = Some (Z.of_nat (Nat.of_uint d)).
Proof.
  intros Hd. unfold Nat.of_uint.
  destruct d; [contradiction | ..];
    cbn [NilEmpty.string_of_uint Js.parse_digits Nat.of_uint_acc];
    match goal with
    | |- context [Js.digit_of ?c] =>
        let v := eval vm_compute in (Js.digit_of c) in
        change (Js.digit_of c) with v
    end;
    cbv beta iota;
    match goal with
    | |- context [(?k <? 10)%Z] => change (k <? 10)%Z with true
    end;
    cbv beta iota;
    match goal with
    | |- context [Js.parse_digits 10 _ (Some ?k)] =>
        change k with (Z.of_nat (Z.to_nat k))
    end;
    rewrite parse_digits_of_uint; reflexivity.
Qed.

(** [parseInt] reads back the decimal text of a natural number. *)
Lemma parseInt_dec (n : nat) : Js.parseInt (Js.Str (Js.dec n)) = Js.Num (Z.of_nat n).
Proof.
  unfold Js.parseInt, Js.dec. cbn [Js.to_string].
  rewrite trim_start_of_uint, strip_sign_of_uint, strip_radix_of_uint.
  rewrite (parse_digits_of_uint_start _ (to_uint_not_nil n)).
  now rewrite Unsigned.of_to.
Qed.

End JsFacts.

(** * Properties of the query builder *)

Section QueryBuilderFacts.
Import QueryBuilder.

Lemma replace_first_occurrence (c : ascii) (r pre post : string) :
  contains c pre = false ->
  Js.replace c r (pre ++ String c post) = pre ++ r ++ post.
Proof.
  induction pre as [|a pre IH]; simpl; intros H.
  - now rewrite Ascii.eqb_refl.
  - apply orb_false_iff in H as [Ha Hpre].
    rewrite Ha. now rewrite IH.
Qed.

Lemma replace_absent (c : ascii) (r s : string) :
  contains c s = false -> Js.replace c r s = s.
Proof.
  induction s as [|a s IH]; simpl; intros H; [reflexivity|].
  apply orb_false_iff in H as [Ha Hs].
  rewrite Ha. now rewrite IH.
Qed.

(** What a call sequence leaves in the builder, from any starting state. *)
Lemma fold_apply_state (calls : list call) : forall this : t,
  let this' := fold_left apply calls this in
  map condition (whereConditions this')
    = (map condition (whereConditions this)
       ++ numbered_conditions (paramIndex this) calls)%list
  /\ params this' = (params this ++ where_values calls)%list
  /\ paramIndex this' = (paramIndex this + length (where_values calls))%nat
  /\ limitValue this'
     = fold_left (fun acc c => match c with Limit v => v | _ => acc end) calls (limitValue this)
  /\ offsetValue this'
     = fold_left (fun acc c => match c with Offset v => v | _ => acc end) calls (offsetValue this).
Proof.
  induction calls as [|c calls IH]; intros this; cbn zeta.
  - cbn. rewrite !app_nil_r, Nat.add_0_r. now repeat split.
  - cbn [fold_left]. specialize (IH (apply this c)). cbn zeta in IH.
    destruct IH as (Hw & Hp & Hi & Hl & Ho).
    rewrite Hw, Hp, Hi, Hl, Ho. clear Hw Hp Hi Hl Ho.
    destruct c as [f|tb|tb cd ty|cd v|f|f d|v|v]; cbn [apply]; try (cbn; now repeat split).
    unfold where_. cbn [numbered_conditions where_values].
    destruct (Js.not_null (Js.default_null v)) eqn:Hv; cbn.
    + rewrite map_app, <- !app_assoc. cbn.
      assert (Js.default_null v = v) as -> by (destruct v; try reflexivity; discriminate).
      repeat split; try reflexivity. lia.
    + rewrite map_app, <- !app_assoc. cbn. now repeat split.
Qed.

Lemma fold_apply_select (calls : list call) : forall this : t,
  match selectFields (fold_left apply calls this) with
  | Some _ => (existsb is_select calls || match selectFields this with Some _ => true | None => false end)%bool = true
  | None => existsb is_select calls = false /\ selectFields this = None
  end.
Proof.
  induction calls as [|c calls IH]; intros this; cbn [fold_left existsb].
  - destruct (selectFields this); auto.
  - specialize (IH (apply this c)).
    assert (selectFields (apply this c)
            = if is_select c then selectFields (apply this c) else selectFields this) as Hc.
    { destruct c; cbn; try reflexivity.
      unfold where_. now destruct (Js.not_null (Js.default_null v)). }
    destruct (selectFields (fold_left apply calls (apply this c))).
    + destruct (is_select c) eqn:Hsel; [reflexivity|].
      rewrite Hc in IH. exact IH.
    + destruct IH as [H1 H2]. rewrite H1.
      destruct c; cbn in *; try discriminate; auto.
      unfold where_ in H2. destruct (Js.not_null (Js.default_null v)); cbn in H2; auto.
Qed.

(** [build] on a builder whose SELECT clause is set. *)
Lemma build_selected (this : t) (fs : list string) :
  selectFields this = Some fs ->
  fst (build this) =
    Js.Return {|
      query := clauses fs this
        ++ (if Js.not_null (limitValue this) then " LIMIT " ++ marker (paramIndex this) else "")
        ++ (if Js.not_null (offsetValue this)
            then " OFFSET " ++ marker (if Js.not_null (limitValue this)
                                       then S (paramIndex this) else paramIndex this)
            else "");
      built_params := (params this
        ++ (if Js.not_null (limitValue this) then [limitValue this] else [])
        ++ (if Js.not_null (offsetValue this) then [offsetValue this] else []))%list |}.
Proof.
  intros Hs. unfold build. rewrite Hs.
  assert (forall s : string, s ++ "" = s) as Hnil
    by (induction s as [|a s IH]; simpl; congruence).
  assert (forall a b c : string, (a ++ b) ++ c = a ++ b ++ c) as Hassoc
    by (induction a as [|x a IH]; simpl; intros; congruence).
  destruct (Js.not_null (limitValue this)), (Js.not_null (offsetValue this)); cbn [fst];
    rewrite ?app_nil_r, ?Hnil, ?Hassoc, <- ?app_assoc; reflexivity.
Qed.

Lemma append_empty (s : string) : s ++ "" = s.
Proof. induction s as [|a s IH]; simpl; congruence. Qed.

Lemma append_associative (a b c : string) : (a ++ b) ++ c = a ++ b ++ c.
Proof. induction a as [|x a IH]; simpl; congruence. Qed.

(** [replace] puts the replacement where the first '?' is. *)
Lemma replace_split (r template : string) :
  Js.replace "?" r template
  = match split_placeholder template with
    | Some (pre, post) => pre ++ r ++ post
    | None => template
    end.
Proof.
  induction template as [|c template IH]; cbn [Js.replace split_placeholder];
    [reflexivity|].
  destruct (Ascii.eqb c "?"); [reflexivity|].
  rewrite IH. now destruct (split_placeholder template) as [[pre post]|].
Qed.

Lemma split_placeholder_first (pre post : string) :
  contains "?" pre = false ->
  split_placeholder (pre ++ String "?" post) = Some (pre, post).
Proof.
  induction pre as [|a pre IH]; cbn [append split_placeholder contains]; intros H.
  - reflexivity.
  - apply orb_false_iff in H as [Ha Hpre]. rewrite Ha. now rewrite (IH Hpre).
Qed.

Lemma split_placeholder_none (template : string) :
  contains "?" template = false -> split_placeholder template = None.
Proof.
  induction template as [|a template IH]; cbn [split_placeholder contains]; intros H.
  - reflexivity.
  - apply orb_false_iff in H as [Ha Ht]. rewrite Ha. now rewrite (IH Ht).
Qed.

Lemma not_null_supplied (v : Js.value) : Js.not_null (Js.default_null v) = supplied v.
Proof. now destruct v. Qed.

Lemma numbered_conditions_spec (calls : list call) : forall k : nat,
  numbered_conditions k calls = conditions k calls.
Proof.
  induction calls as [|c calls IH]; intros k; [reflexivity|].
  destruct c; cbn [numbered_conditions conditions]; try apply IH.
  rewrite not_null_supplied. destruct (supplied v).
  - rewrite replace_split, IH. reflexivity.
  - now rewrite IH.
Qed.

Lemma where_values_spec (calls : list call) : where_values calls = supplied_values calls.
Proof.
  induction calls as [|c calls IH]; [reflexivity|].
  destruct c; cbn [where_values supplied_values]; try apply IH.
  rewrite not_null_supplied. destruct (supplied v); now rewrite IH.
Qed.

Let join_text (j : join_clause) : string :=
  " " ++ j_type j ++ " JOIN " ++ j_table j ++ " ON " ++ j_condition j.

Let order_text (o : order_clause) : string := field o ++ " " ++ direction o.

(** The clauses a call sequence leaves in the builder, from any starting
    state. *)
Lemma fold_apply_clauses (calls : list call) : forall this : t,
  let this' := fold_left apply calls this in
  selectFields this'
  = fold_left (fun acc c =>
                 match c with
                 | Select (One f) => Some [f]
                 | Select (Array fs) => Some fs
                 | _ => acc
                 end) calls (selectFields this)
  /\ fromTable this'
     = fold_left (fun acc c => match c with From tb => tb | _ => acc end) calls (fromTable this)
  /\ map join_text
         (joins this')
     = (map join_text
            (joins this)
        ++ joined calls)%list
  /\ groupByFields this'
     = fold_left (fun acc c =>
                    match c with
                    | GroupBy (One f) => [f]
                    | GroupBy (Array fs) => fs
                    | _ => acc
                    end) calls (groupByFields this)
  /\ map order_text (orderByClauses this')
     = (map order_text (orderByClauses this)
        ++ ordered calls)%list.
Proof.
  induction calls as [|c calls IH]; intros this; cbn zeta.
  - cbn. rewrite !app_nil_r. now repeat split.
  - cbn [fold_left]. specialize (IH (apply this c)). cbn zeta in IH.
    destruct IH as (Hs & Hf & Hj & Hg & Ho).
    rewrite Hs, Hf, Hj, Hg, Ho. clear Hs Hf Hj Hg Ho.
    unfold joined, ordered, join_text, order_text. cbn [flat_map].
    destruct c as [f|tb|tb cd ty|cd v|f|f d|v|v]; cbn [apply].
    4: unfold where_; destruct (Js.not_null (Js.default_null v)).
    all: cbn [select from join groupBy orderBy limit offset selectFields fromTable joins
              groupByFields orderByClauses j_type j_table j_condition field direction
              as_array app].
    all: rewrite ?map_app, <- ?app_assoc; cbn [map app].
    all: try (destruct f); try (now repeat split).
Qed.

Lemma fold_joins (l : list string) : forall q : string,
  fold_left (fun q j => q ++ j) l q = q ++ String.concat "" l.
Proof.
  induction l as [|j l IH]; intros q; cbn [fold_left String.concat].
  - now rewrite append_empty.
  - rewrite IH, append_associative. destruct l; [now rewrite !append_empty|reflexivity].
Qed.

Lemma fold_left_map {A B C : Type} (f : C -> B -> C) (g : A -> B) (l : list A) :
  forall c : C, fold_left (fun c a => f c (g a)) l c = fold_left f (map g l) c.
Proof. induction l as [|a l IH]; intros c; cbn; [reflexivity|apply IH]. Qed.

End QueryBuilderFacts.

(** What [build()] returns after a call sequence on a fresh builder is the
    statement and the parameters the sequence asks for. *)
Lemma run_is_statement : forall calls : list QueryBuilder.call,
  match selected calls with
  | Some fs =>
      QueryBuilder.run calls
      = Js.Return {| QueryBuilder.query := statement fs calls;
                     QueryBuilder.built_params := parameters calls |}
  | None => QueryBuilder.run calls = Js.Throw (Js.Error "SELECT clause is required")
  end.
Proof.
  intros calls.
  destruct (fold_apply_state calls QueryBuilder.new) as (Hw & Hp & Hi & Hl & Ho).
  destruct (fold_apply_clauses calls QueryBuilder.new) as (Hs & Hf & Hj & Hg & Hor).
  cbn zeta in Hw, Hp, Hi, Hl, Ho, Hs, Hf, Hj, Hg, Hor.
  unfold QueryBuilder.run.
  remember (fold_left QueryBuilder.apply calls QueryBuilder.new) as this eqn:Hthis.
  clear Hthis.
  cbn [QueryBuilder.new QueryBuilder.whereConditions QueryBuilder.params
       QueryBuilder.paramIndex QueryBuilder.selectFields QueryBuilder.fromTable
       QueryBuilder.joins QueryBuilder.groupByFields QueryBuilder.orderByClauses
       map Nat.add] in Hw, Hp, Hi, Hs, Hf, Hj, Hg, Hor.
  rewrite app_nil_l in Hw, Hp, Hj, Hor.
  rewrite numbered_conditions_spec in Hw. rewrite where_values_spec in Hp, Hi.
  fold (selected calls) in Hs. fold (table calls) in Hf. fold (grouped calls) in Hg.
  change (QueryBuilder.limitValue this = QueryBuilder.last_limit calls) in Hl.
  change (QueryBuilder.offsetValue this = QueryBuilder.last_offset calls) in Ho.
  destruct (selected calls) as [fs|].
  + rewrite (build_selected this fs Hs). unfold statement, parameters.
    rewrite Hl, Ho, Hp, Hi.
    assert (forall v, Js.not_null v = supplied_or_undefined v) as Hnull by now destruct v.
    rewrite !Hnull.
    replace (length (supplied_values calls) + 1)%nat
      with (S (length (supplied_values calls))) by lia.
    replace (length (supplied_values calls) + 2)%nat
      with (S (S (length (supplied_values calls)))) by lia.
    change (QueryBuilder.marker ?k) with (positional k).
    f_equal. f_equal.
    unfold QueryBuilder.clauses. rewrite Hf, Hw, Hg.
    rewrite (fold_left_map (fun q j => q ++ j)
               (fun j => " " ++ QueryBuilder.j_type j ++ " JOIN " ++ QueryBuilder.j_table j
                         ++ " ON " ++ QueryBuilder.j_condition j)).
    rewrite Hj, fold_joins.
    rewrite <- (length_map QueryBuilder.condition (QueryBuilder.whereConditions this)), Hw.
    rewrite <- (length_map (fun o => QueryBuilder.field o ++ " " ++ QueryBuilder.direction o)
                  (QueryBuilder.orderByClauses this)), Hor.
    unfold clause, Js.join.
    destruct (conditions 1 calls), (grouped calls), (ordered calls);
      cbn [length Nat.ltb Nat.leb];
      rewrite ?append_associative, ?append_empty; reflexivity.
  + unfold QueryBuilder.build. now rewrite Hs.
Qed.


(** C8. [.select(['id']).from('jobs').where('state = ?','done').limit(10)
    .offset(5).build()] returns the parameter list ['done', 10, 5] and a
    statement with exactly one WHERE, one LIMIT and one OFFSET, in that order,
    whose markers are $1, $2, $3 from left to right. In general what
    [build()] returns is a function of the call sequence alone, and it is
    the statement asked for: its conditions carry the markers 1..n of the n
    values given to [where] in call order, its LIMIT clause the next marker
    and its OFFSET clause the one after, and its parameter list is the
    where-values, then the limit, then the offset. *)
Theorem build_markers_follow_parameters :
  (QueryBuilder.run example_calls
     = Js.Return {| QueryBuilder.query := example_query;
                    QueryBuilder.built_params := [Js.Str "done"; Js.Num 10; Js.Num 5] |}
   /\ QueryBuilder.occurrences "WHERE" example_query = [20%nat]
   /\ QueryBuilder.occurrences "LIMIT" example_query = [37%nat]
   /\ QueryBuilder.occurrences "OFFSET" example_query = [46%nat]
   /\ QueryBuilder.occurrences "$" example_query = [34%nat; 43%nat; 53%nat]
   /\ QueryBuilder.occurrences "$1" example_query = [34%nat]
   /\ QueryBuilder.occurrences "$2" example_query = [43%nat]
   /\ QueryBuilder.occurrences "$3" example_query = [53%nat])
  /\ forall calls : list QueryBuilder.call,
       match selected calls with
       | Some fs =>
           QueryBuilder.run calls
           = Js.Return {| QueryBuilder.query := statement fs calls;
                          QueryBuilder.built_params := parameters calls |}
       | None => QueryBuilder.run calls = Js.Throw (Js.Error "SELECT clause is required")
       end.
Proof.
  split.
  - repeat split; vm_compute; reflexivity.
  - exact run_is_statement.
Qed.

(** C9. On a fresh builder, [build()] throws 'SELECT clause is required'
    (the MissingClause error) exactly for the call sequences that contain no
    [select]; for every sequence that contains one, [build()] returns. *)
Theorem build_requires_select : forall calls : list QueryBuilder.call,
  if existsb QueryBuilder.is_select calls
  then exists b : QueryBuilder.built, QueryBuilder.run calls = Js.Return b
  else QueryBuilder.run calls = Js.Throw (Js.Error "SELECT clause is required").
Proof.
  intros calls.
  pose proof (fold_apply_select calls QueryBuilder.new) as H.
  unfold QueryBuilder.run.
  destruct (QueryBuilder.selectFields (fold_left QueryBuilder.apply calls QueryBuilder.new))
    as [fs|] eqn:Hs.
  - cbn in H. rewrite orb_false_r in H. rewrite H.
    rewrite (build_selected _ fs Hs). eexists. reflexivity.
  - destruct H as [H _]. rewrite H. unfold QueryBuilder.build. now rewrite Hs.
Qed.

(** C10. A [where(template, value)] call that supplies a non-null value
    appends the value once to the parameter list and replaces exactly the
    first '?' of the template by the next positional marker: a dollar sign
    and the number of the builder's counter, which on a builder that has not
    built yet is the position the value takes in the parameter list.
    Whatever follows that first '?' ([post], further '?' included) is kept
    verbatim, and so is a template without any '?'. *)
Theorem where_replaces_first_placeholder_only :
  forall (this : QueryBuilder.t) (v : Js.value),
  supplied v = true ->
  (forall pre post : string,
     QueryBuilder.contains "?" pre = false ->
     let this' := QueryBuilder.where_ (pre ++ "?" ++ post) v this in
     QueryBuilder.whereConditions this'
     = (QueryBuilder.whereConditions this
        ++ [ {| QueryBuilder.condition :=
                  pre ++ positional (QueryBuilder.paramIndex this) ++ post;
                QueryBuilder.value := v |} ])%list
     /\ QueryBuilder.params this' = (QueryBuilder.params this ++ [v])%list
     /\ QueryBuilder.paramIndex this' = S (QueryBuilder.paramIndex this))
  /\ (forall template : string,
        QueryBuilder.contains "?" template = false ->
        let this' := QueryBuilder.where_ template v this in
        QueryBuilder.whereConditions this'
        = (QueryBuilder.whereConditions this
           ++ [ {| QueryBuilder.condition := template; QueryBuilder.value := v |} ])%list
        /\ QueryBuilder.params this' = (QueryBuilder.params this ++ [v])%list
        /\ QueryBuilder.paramIndex this' = S (QueryBuilder.paramIndex this))
  /\ forall calls : list QueryBuilder.call,
       this = fold_left QueryBuilder.apply calls QueryBuilder.new ->
       QueryBuilder.paramIndex this = S (length (QueryBuilder.params this))
       /\ forall template : string,
            nth_error (QueryBuilder.params (QueryBuilder.where_ template v this))
                      (QueryBuilder.paramIndex this - 1)
            = Some v.
Proof.
  intros this v Hv.
  assert (Js.default_null v = v) as Hd by (destruct v; try reflexivity; discriminate).
  assert (Js.not_null v = true) as Hn by (destruct v; try reflexivity; discriminate).
  split; [|split].
  - intros pre post Hpre this'. subst this'.
    unfold QueryBuilder.where_. rewrite Hd, Hn. cbn.
    rewrite replace_split.
    change (pre ++ String "?" post) with (pre ++ String "?"%char post).
    rewrite (split_placeholder_first pre post Hpre).
    now repeat split.
  - intros template Ht this'. subst this'.
    unfold QueryBuilder.where_. rewrite Hd, Hn. cbn.
    rewrite replace_split, (split_placeholder_none template Ht).
    now repeat split.
  - intros calls Hthis.
    destruct (fold_apply_state calls QueryBuilder.new) as (_ & Hp & Hi & _).
    cbn zeta in Hp, Hi. rewrite <- Hthis in Hp, Hi.
    cbn [QueryBuilder.new QueryBuilder.params QueryBuilder.paramIndex Nat.add] in Hp, Hi.
    rewrite app_nil_l in Hp. rewrite Hp, Hi. split; [reflexivity|].
    intros template. unfold QueryBuilder.where_. rewrite Hd, Hn.
    cbn [QueryBuilder.params]. rewrite Hp.
    replace (S (length (QueryBuilder.where_values calls)) - 1)%nat
      with (length (QueryBuilder.where_values calls) + 0)%nat by lia.
    now rewrite nth_error_app2, Nat.add_comm, Nat.add_sub by lia.
Qed.

Lemma where_replaces_first_placeholder_only_witness :
  let this := fold_left QueryBuilder.apply
                [QueryBuilder.Where "a = ?" (Js.Num 1); QueryBuilder.Where "b = ?" (Js.Num 2)]
                QueryBuilder.new in
  let this' := QueryBuilder.where_ ("c = " ++ "?" ++ " OR d = ?") (Js.Num 7) this in
  QueryBuilder.whereConditions this'
    = [ {| QueryBuilder.condition := "a = $1"; QueryBuilder.value := Js.Num 1 |};
        {| QueryBuilder.condition := "b = $2"; QueryBuilder.value := Js.Num 2 |};
        {| QueryBuilder.condition := "c = $3 OR d = ?"; QueryBuilder.value := Js.Num 7 |} ]
  /\ QueryBuilder.params this' = [Js.Num 1; Js.Num 2; Js.Num 7]
  /\ QueryBuilder.paramIndex this' = 4%nat.
Proof.
  exact (proj1 (where_replaces_first_placeholder_only
                  (fold_left QueryBuilder.apply
                     [QueryBuilder.Where "a = ?" (Js.Num 1);
                      QueryBuilder.Where "b = ?" (Js.Num 2)]
                     QueryBuilder.new)
                  (Js.Num 7) eq_refl)
           "c = " " OR d = ?" eq_refl).
Defined.

(** * Properties of the validator *)

Section ValidatorFacts.

Lemma parse_digits_dec_text (n : nat) :
  Js.parse_digits 10 (Js.dec n) None = Some (Z.of_nat n).
Proof.
  unfold Js.dec.
  rewrite (parse_digits_of_uint_start _ (to_uint_not_nil n)).
  now rewrite Unsigned.of_to.
Qed.

(** [parseInt] of an integer is that integer. *)
Lemma parseInt_Num (n : Z) : Js.parseInt (Js.Num n) = Js.Num n.
Proof.
  unfold Js.parseInt. cbn [Js.to_string]. unfold Js.dec_Z.
  destruct (n <? 0)%Z eqn:Hneg.
  - cbn [Js.trim_start append]. change (Js.is_white_space "-") with false. cbv beta iota.
    cbn [Js.strip_sign]. unfold Js.dec at 1.
    rewrite strip_radix_of_uint. fold (Js.dec (Z.abs_nat n)).
    rewrite parse_digits_dec_text. f_equal. apply Z.ltb_lt in Hneg. lia.
  - unfold Js.dec.
    rewrite trim_start_of_uint, strip_sign_of_uint, strip_radix_of_uint.
    fold (Js.dec (Z.abs_nat n)). rewrite parse_digits_dec_text.
    f_equal. apply Z.ltb_ge in Hneg. lia.
Qed.

End ValidatorFacts.

(** C4. [validatePagination] does not fail on a limit of 0: [parseInt(0) || 50]
    is 50, so the default applies and the call returns limit 50, although
    the parsed limit, 0, is below 1 (and the test 'should validate limit
    constraints' expects 'Limit must be at least 1'). For an integer limit
    [n] below 10^21 in absolute value (from there on JavaScript prints a
    number with an exponent) and no offset, the call throws exactly when
    n > 100 or n < 0. *)
Theorem validatePagination_defaults_a_zero_limit :
  Validator.validatePagination (Js.Num 0) Js.Undefined
    = Js.Return (Js.Obj [("limit", Js.Num 50); ("offset", Js.Num 0)])
  /\ Validator.validatePagination (Js.Str "0") Js.Undefined
    = Js.Return (Js.Obj [("limit", Js.Num 50); ("offset", Js.Num 0)])
  /\ forall n : Z,
       (Z.abs n < 1000000000000000000000)%Z ->
       Validator.validatePagination (Js.Num n) Js.Undefined
       = if (100 <? n)%Z then Js.Throw (Js.Error "Limit cannot exceed 100")
         else if (n <? 0)%Z then Js.Throw (Js.Error "Limit must be at least 1")
         else Js.Return (Js.Obj [("limit", Js.Num (if (n =? 0)%Z then 50 else n));
                                 ("offset", Js.Num 0)]).
Proof.
  split; [reflexivity|]. split; [reflexivity|].
  intros n _. unfold Validator.validatePagination. rewrite parseInt_Num.
  change (Js.parseInt Js.Undefined) with Js.NaN.
  unfold Js.or. cbn [Js.truthy Js.lt Js.gt].
  destruct (n =? 0)%Z eqn:H0; cbn [negb].
  - apply Z.eqb_eq in H0. subst n. reflexivity.
  - cbn [Js.gt Js.lt]. destruct (100 <? n)%Z eqn:H100; [reflexivity|].
    assert ((n <? 1) = (n <? 0))%Z as ->.
    { apply Z.eqb_neq in H0. destruct (n <? 0)%Z eqn:Hn.
      - apply Z.ltb_lt in Hn. apply Z.ltb_lt. lia.
      - apply Z.ltb_ge in Hn. apply Z.ltb_ge. lia. }
    destruct (n <? 0)%Z; reflexivity.
Qed.

(** * Properties of the database service *)

Section DatabaseServiceFacts.
Import Pg DatabaseService.

Lemma existsb_filter_cons {A : Type} (f : A -> bool) (l : list A) :
  existsb f l = true -> exists x rest, filter f l = x :: rest /\ f x = true.
Proof.
  induction l as [|a l IH]; cbn; intros H; [discriminate|].
  destruct (f a) eqn:Ha.
  - exists a, (filter f l). now split.
  - now apply IH.
Qed.


Lemma filter_none {A : Type} (f : A -> bool) (l : list A) :
  filter f (filter (fun x => negb (f x)) l) = [].
Proof.
  induction l as [|a l IH]; cbn; [reflexivity|].
  destruct (f a) eqn:Ha; cbn; [exact IH | now rewrite Ha].
Qed.

Lemma strict_eq_num_of_nat (n : nat) :
  Js.strict_eq_num (Js.Num (Z.of_nat n)) 0 = Nat.eqb n 0.
Proof. destruct n; reflexivity. Qed.

(** The row found has the identifier the server read from the parameter. *)
Lemma has_id_bigint (jobId : Js.value) (k : Z) (j : job) :
  bigint jobId = Js.Return (Some k) -> has_id jobId j = true -> job_id j = k.
Proof.
  unfold has_id, matches. intros ->. apply Z.eqb_eq.
Qed.

End DatabaseServiceFacts.

(** ** Symbolic execution of a service call *)

Lemma send_fault (text : string) (params : list Js.value) (w : Pg.world) (msg : string) :
  Pg.next_fault w = Some msg ->
  Pg.client_query text params w
  = (Js.Throw (Js.Error msg),
     Pg.answered (Pg.Queried text params false (Pg.committed w)) (Pg.failed w)).
Proof. intros F. unfold Pg.client_query, Pg.send. now rewrite F. Qed.

Lemma send_accepted (text : string) (params : list Js.value) (w : Pg.world)
  (st : Pg.statement) (rows : list Js.value) (w' : Pg.world) :
  Pg.next_fault w = None ->
  Pg.parse text params = Some st ->
  Pg.perform st w = (Js.Return rows, w') ->
  Pg.client_query text params w
  = (Js.Return rows, Pg.answered (Pg.Queried text params true (Pg.committed w')) w').
Proof. intros F P R. unfold Pg.client_query, Pg.send. now rewrite F, P, R. Qed.

Lemma send_refused (text : string) (params : list Js.value) (w : Pg.world)
  (st : Pg.statement) (e : Js.error) (w' : Pg.world) :
  Pg.next_fault w = None ->
  Pg.parse text params = Some st ->
  Pg.perform st w = (Js.Throw e, w') ->
  Pg.client_query text params w
  = (Js.Throw e, Pg.answered (Pg.Queried text params false (Pg.committed w')) (Pg.failed w')).
Proof. intros F P R. unfold Pg.client_query, Pg.send. now rewrite F, P, R. Qed.

Lemma connect_fault (w : Pg.world) (msg : string) :
  Pg.next_fault w = Some msg ->
  Pg.pool_connect w = (Js.Throw (Js.Error msg), Pg.answered (Pg.Connected false) w).
Proof. intros F. unfold Pg.pool_connect. now rewrite F. Qed.

Lemma connect_ok (w : Pg.world) :
  Pg.next_fault w = None ->
  Pg.pool_connect w
  = (Js.Return tt, Pg.answered (Pg.Connected true) (Pg.set_client Pg.Idle w)).
Proof. intros F. unfold Pg.pool_connect. now rewrite F. Qed.

(** The plumbing of clients, worlds and awaited steps, computed where its
    arguments are known. *)
Ltac plumbing E :=
  cbn [Pg.answered Pg.failed Pg.perform Pg.rejected Pg.set_client Pg.set_committed
       Pg.committed Pg.client Pg.faults Pg.calls Pg.journal Pg.console Pg.start
       Pg.client_release Pg.ret Pg.throw Pg.lift Pg.console_log
       Pg.exec Pg.jobs Pg.tasks Pg.task_deps
       Pg.delete_jobs Pg.delete_tasks Pg.delete_task_deps Pg.id_row
       Js.get Js.first Js.lookup Js.field
       String.eqb Ascii.eqb Bool.eqb app length map Nat.eqb fst snd] in E.

Ltac side_condition :=
  cbn [Pg.answered Pg.failed Pg.perform Pg.rejected Pg.set_client Pg.set_committed
       Pg.committed Pg.client Pg.faults Pg.calls Pg.journal Pg.console
       Pg.next_fault Pg.start];
  repeat match goal with
         | H : Pg.bigint ?v = _ |- context [Pg.bigint ?v] => rewrite H
         end;
  first [ eassumption | reflexivity ].

(** One call on the pool or the client: the plan says whether it fails. *)
Ltac call E plan :=
  match type of E with
  | context [Pg.pool_connect ?w] =>
      let k := eval cbn [Pg.calls Pg.answered Pg.failed Pg.set_client Pg.set_committed
                         Pg.client Pg.start] in (Pg.calls w) in
      (lazymatch goal with
       | F : nth k plan None = _ |- _ => idtac
       | _ => let F := fresh "F" in destruct (nth k plan None) eqn:F
       end);
      first [ rewrite (connect_ok w) in E by side_condition
            | erewrite (connect_fault w) in E by side_condition ]
  | context [Pg.client_query ?t ?p ?w] =>
      let k := eval cbn [Pg.calls Pg.answered Pg.failed Pg.set_client Pg.set_committed
                         Pg.client Pg.start] in (Pg.calls w) in
      (lazymatch goal with
       | F : nth k plan None = _ |- _ => idtac
       | _ => let F := fresh "F" in destruct (nth k plan None) eqn:F
       end);
      first [ erewrite (send_accepted t p w) in E by side_condition
            | erewrite (send_refused t p w) in E by side_condition
            | erewrite (send_fault t p w) in E by side_condition ]
  end.

(** The run is known: what the statement says of it is computed, with the
    plan's entries as the run found them. *)
Ltac finish_run plan :=
  unfold fault_free, Pg.seen, Pg.sent;
  cbn [fst snd Pg.journal Pg.committed Pg.answered Pg.failed Pg.set_client
       Pg.set_committed Pg.client Pg.start
       flat_map app seq forallb existsb map Pg.is_delete
       String.prefix Ascii.ascii_dec Ascii.eqb Bool.eqb];
  repeat match goal with
         | F : nth _ plan None = _ |- _ => rewrite ?F; clear F
         end;
  cbn [andb orb].

(** One call under a plan that is known: no split. *)
Ltac known_call E :=
  match type of E with
  | context [Pg.pool_connect ?w] =>
      first [ rewrite (connect_ok w) in E by side_condition
            | erewrite (connect_fault w) in E by side_condition ]
  | context [Pg.client_query ?t ?p ?w] =>
      first [ erewrite (send_accepted t p w) in E by side_condition
            | erewrite (send_refused t p w) in E by side_condition
            | erewrite (send_fault t p w) in E by side_condition ]
  end.

Ltac run_known E rewrites :=
  unfold Pg.try_catch_finally, Pg.try_catch, Pg.bind in E;
  plumbing E; repeat (rewrites; plumbing E);
  repeat (known_call E; plumbing E; repeat (rewrites; plumbing E)).

Ltac run_plan E plan rewrites :=
  unfold Pg.try_catch_finally, Pg.try_catch, Pg.bind in E;
  plumbing E; repeat (rewrites; plumbing E);
  repeat (call E plan; plumbing E; repeat (rewrites; plumbing E)).




(** C1. For a Job that exists, [deleteJob] sends BEGIN, the existence check,
    DELETE on task_deps, DELETE on tasks, DELETE on jobs and COMMIT, in that
    order, on one client. When none of its calls fails it returns the
    identifier of the Job, and other readers see the store unchanged after every
    statement before COMMIT and without the Job, its Tasks and its
    dependency rows after it. When any call fails it throws, the statements
    sent are a prefix of that sequence followed by ROLLBACK, and other
    readers see the store unchanged throughout and at the end. *)
Theorem deleteJob_is_one_ordered_transaction :
  forall (s : Pg.store) (jobId : Js.value) (k : Z) (plan : list (option string)),
  Pg.bigint jobId = Js.Return (Some k) ->
  job_exists jobId s = true ->
  let run := DatabaseService.deleteJob jobId (Pg.start s plan) in
  if fault_free 7 plan
  then fst run = Js.Return (Js.Obj [("deletedJobId", Js.Str (Js.dec_Z k))])
       /\ Pg.sent (snd run) = map (fun text => (text, true)) deleteJob_script
       /\ Pg.seen (snd run) = [s; s; s; s; s; without_job jobId s]
       /\ Pg.committed (snd run) = without_job jobId s
  else (exists e, fst run = Js.Throw e)
       /\ (Pg.sent (snd run) = []
           \/ exists n, map fst (Pg.sent (snd run)) = (firstn n deleteJob_script ++ ["ROLLBACK"])%list)
       /\ Forall (fun visible => visible = s) (Pg.seen (snd run))
       /\ Pg.committed (snd run) = s.
Proof.
  intros s jobId k plan Hcast H run. subst run.
  apply existsb_filter_cons in H as (j & rest & Hfilter & Hj).
  apply (has_id_bigint _ _ _ Hcast) in Hj.
  remember (DatabaseService.deleteJob jobId (Pg.start s plan)) as r eqn:E.
  unfold DatabaseService.deleteJob in E.
  run_plan E plan ltac:(rewrite Hfilter in E).
  all: subst r; finish_run plan; rewrite ?Hj.
  all: repeat match goal with |- _ /\ _ => split end.
  all: try reflexivity.
  all: try (eexists; reflexivity).
  all: try (repeat (apply Forall_cons; [reflexivity|]); apply Forall_nil).
  all: first [ left; reflexivity
             | right;
               first [ exists 0%nat; reflexivity | exists 1%nat; reflexivity
                     | exists 2%nat; reflexivity | exists 3%nat; reflexivity
                     | exists 4%nat; reflexivity | exists 5%nat; reflexivity
                     | exists 6%nat; reflexivity ] ].
Qed.

Lemma deleteJob_is_one_ordered_transaction_witness :
  Pg.committed
    (snd (DatabaseService.deleteJob (Js.Str "1")
            (Pg.start example_store [None; None; None; None; Some "connection lost"])))
  = example_store.
Proof.
  exact (proj2 (proj2 (proj2
    (deleteJob_is_one_ordered_transaction example_store (Js.Str "1") 1
       [None; None; None; None; Some "connection lost"] eq_refl eq_refl)))).
Defined.

(** What a fault-free prefix of the plan says of each of its calls. *)
Ltac plan_facts H plan :=
  unfold fault_free in H; cbn [seq forallb] in H;
  repeat match type of H with
         | context [nth ?k plan None] =>
             let F := fresh "F" in
             destruct (nth k plan None) eqn:F; cbn [andb] in H; [discriminate H|]
         end;
  clear H.

(** With no Job in the state, the call commits an empty transaction. *)
Lemma clearJobsInState_none (state label : string) (s : Pg.store)
  (plan : list (option string)) :
  fault_free 4 plan = true ->
  filter (Pg.in_state (Js.Str state)) (Pg.jobs s) = [] ->
  let run := DatabaseService.clearJobsInState state label (Pg.start s plan) in
  fst run = Js.Return (nothing_cleared label)
  /\ Pg.committed (snd run) = s
  /\ Pg.sent (snd run)
     = [("BEGIN", true); ("SELECT COUNT(*) as count FROM jobs WHERE state = $1", true);
        ("COMMIT", true)].
Proof.
  intros Hplan H run. subst run. plan_facts Hplan plan.
  remember (DatabaseService.clearJobsInState state label (Pg.start s plan)) as r eqn:E.
  unfold DatabaseService.clearJobsInState in E.
  run_plan E plan ltac:(first [ rewrite H in E | rewrite parseInt_dec in E
                              | rewrite strict_eq_num_of_nat in E ]).
  subst r. unfold Pg.sent. now repeat split.
Qed.

(** With Jobs in the state, they go with their Tasks and dependency rows. *)
Lemma clearJobsInState_some (state label : string) (s : Pg.store)
  (plan : list (option string)) (j : Pg.job) (rest : list Pg.job) :
  fault_free 8 plan = true ->
  filter (Pg.in_state (Js.Str state)) (Pg.jobs s) = j :: rest ->
  let run := DatabaseService.clearJobsInState state label (Pg.start s plan) in
  fst run = Js.Return (cleared label (j :: rest))
  /\ Pg.committed (snd run) = without_jobs_in_state state s
  /\ Pg.sent (snd run)
     = [("BEGIN", true); ("SELECT COUNT(*) as count FROM jobs WHERE state = $1", true);
        ("SELECT id FROM jobs WHERE state = $1", true);
        ("DELETE FROM task_deps WHERE job_id IN (SELECT id FROM jobs WHERE state = $1)", true);
        ("DELETE FROM tasks WHERE job_id IN (SELECT id FROM jobs WHERE state = $1)", true);
        ("DELETE FROM jobs WHERE state = $1", true);
        ("COMMIT", true)].
Proof.
  intros Hplan H run. subst run. plan_facts Hplan plan.
  remember (DatabaseService.clearJobsInState state label (Pg.start s plan)) as r eqn:E.
  unfold DatabaseService.clearJobsInState in E.
  run_plan E plan ltac:(first [ rewrite H in E | rewrite parseInt_dec in E
                              | rewrite strict_eq_num_of_nat in E ]).
  subst r. unfold Pg.sent, cleared.
  cbn [fst snd Pg.committed Pg.journal flat_map app length].
  split; [|split; reflexivity].
  rewrite map_map. reflexivity.
Qed.

(** C3. [getJobDependencies] returns the precedence edges of the Job with
    their count, an empty list when there is none (an identifier that is no
    BIGINT is the store's error). When the statement on task_deps fails, as
    it does where the table is unavailable, the error is not swallowed: the
    call throws it to its caller. (The delete paths of the same service
    catch that failure; this read path does not.) *)
Theorem getJobDependencies_propagates_store_failure :
  forall (s : Pg.store) (jobId : Js.value),
  match Pg.bigint jobId with
  | Js.Return _ =>
      fst (DatabaseService.getJobDependencies jobId (Pg.start s []))
      = Js.Return (Js.Obj [("dependencies", Js.Arr (dependencies_of jobId s));
                           ("count", Js.Num (Z.of_nat (length (dependencies_of jobId s))))])
  | Js.Throw e =>
      fst (DatabaseService.getJobDependencies jobId (Pg.start s [])) = Js.Throw e
  end
  /\ forall (msg : string) (plan : list (option string)),
       fst (DatabaseService.getJobDependencies jobId (Pg.start s (Some msg :: plan)))
       = Js.Throw (Js.Error msg).
Proof.
  intros s jobId. split; [|intros msg plan; reflexivity].
  unfold DatabaseService.getJobDependencies, Pg.bind, Pg.pool_query, Pg.send.
  cbn [Pg.next_fault Pg.start Pg.set_client Pg.calls Pg.faults nth].
  change (Pg.parse "SELECT pre_task_id, post_task_id FROM task_deps WHERE job_id = $1" [jobId])
    with (Some (Pg.SelectTaskDepsOfJob jobId)).
  cbn [Pg.perform Pg.client Pg.rejected Pg.set_client Pg.start].
  destruct (Pg.bigint jobId) as [cast|e]; reflexivity.
Qed.

(** C5. [clearCompletedJobs], when its calls succeed: with no Job in state
    done it commits and returns deletedJobsCount 0; with N >= 1 such Jobs it
    returns N and exactly their identifiers, and commits the store without
    them, their Tasks and their dependency rows. Either way no Job in state
    done is left, and a call made right after returns 0. *)
Theorem clearCompletedJobs_returns_count_and_ids : forall s : Pg.store,
  let done := filter (Pg.in_state (Js.Str "done")) (Pg.jobs s) in
  let run := DatabaseService.clearCompletedJobs (Pg.start s []) in
  let after := Pg.committed (snd run) in
  match done with
  | [] =>
      fst run = Js.Return (Js.Obj [("deletedJobsCount", Js.Num 0);
                                   ("message", Js.Str "No completed jobs found to delete")])
      /\ after = s
  | _ :: _ =>
      fst run
      = Js.Return
          (Js.Obj [("deletedJobsCount", Js.Num (Z.of_nat (length done)));
                   ("deletedJobIds",
                    Js.Arr (map (fun j => Js.Str (Js.dec_Z (Pg.job_id j))) done));
                   ("message",
                    Js.Str ("Successfully deleted "
                            ++ Js.to_string (Js.Num (Z.of_nat (length done)))
                            ++ " completed job(s)"))])
      /\ after = without_jobs_in_state "done" s
  end
  /\ last (Pg.sent (snd run)) ("", false) = ("COMMIT", true)
  /\ filter (Pg.in_state (Js.Str "done")) (Pg.jobs after) = []
  /\ fst (DatabaseService.clearCompletedJobs (Pg.start after []))
     = Js.Return (Js.Obj [("deletedJobsCount", Js.Num 0);
                          ("message", Js.Str "No completed jobs found to delete")]).
Proof.
  intros s done run after. subst after run. unfold DatabaseService.clearCompletedJobs.
  destruct done as [|j rest] eqn:Hdone; subst done.
  - destruct (clearJobsInState_none "done" "completed" s [] eq_refl Hdone) as (Hr & Hc & Hs).
    rewrite Hr, Hc, Hs. repeat split; try assumption.
  - destruct (clearJobsInState_some "done" "completed" s [] j rest eq_refl Hdone)
      as (Hr & Hc & Hs).
    rewrite Hr, Hc, Hs.
    assert (filter (Pg.in_state (Js.Str "done"))
              (Pg.jobs (without_jobs_in_state "done" s)) = []) as Hnone
      by apply filter_none.
    repeat split; try assumption.
    apply (clearJobsInState_none "done" "completed" _ [] eq_refl Hnone).
Qed.

(** * Properties of the retention scheduler *)

Section TimerFacts.
Import Timers.

Lemma insert_In (f g : firing) (l : list firing) :
  In g (insert f l) <-> g = f \/ In g l.
Proof.
  induction l as [|h l IH]; cbn.
  - intuition congruence.
  - destruct (at_time f <=? at_time h)%Z; cbn; [intuition congruence|].
    rewrite IH. intuition.
Qed.

Lemma in_order_In (g : firing) (l : list firing) : In g (in_order l) <-> In g l.
Proof.
  induction l as [|f l IH]; cbn; [reflexivity|].
  rewrite insert_In, IH. intuition congruence.
Qed.

Lemma firings_of_timer (t : Z) (tm : timer) (f : firing) :
  In f (firings_of t tm) -> by_timer f = id tm.
Proof.
  unfold firings_of. destruct (due tm <=? t)%Z; [|intros []].
  destruct (every tm).
  - rewrite in_map_iff. intros (k & <- & _). reflexivity.
  - intros [<-|[]]. reflexivity.
Qed.

(** A timer that is not armed does not fire. *)
Lemma advance_fires_armed_timers (dt : Z) (l : loop) (f : firing) :
  In f (fired (advance dt l)) ->
  In f (fired l) \/ exists tm, In tm (armed l) /\ by_timer f = id tm.
Proof.
  unfold advance. cbn [fired]. rewrite in_app_iff, in_order_In, in_flat_map.
  intros [H|(tm & Htm & Hf)]; [now left|right].
  exists tm. split; [assumption|]. eapply firings_of_timer, Hf.
Qed.

Lemma clearInterval_disarms (handle : nat) (l : loop) (tm : timer) :
  In tm (armed (clearInterval handle l)) -> id tm <> handle.
Proof.
  unfold clearInterval. cbn [armed]. rewrite filter_In. intros [_ H].
  apply negb_true_iff, Nat.eqb_neq in H. exact H.
Qed.

Lemma period_positive (interval : Z) : (1 <= period interval)%Z.
Proof.
  unfold period. destruct (1 <=? interval)%Z eqn:H; cbn [andb]; [|lia].
  destruct (interval <=? 2147483647)%Z; [|lia]. now apply Z.leb_le.
Qed.

Lemma delay_period (interval : Z) : delay interval = period interval.
Proof. reflexivity. Qed.

End TimerFacts.

(** C2, as stated, fails, in both its parts. With an interval of one hour,
    [start()] then [stop()] at once: a sweep still fires, 5000 ms later.
    With an interval of one second, the first sweep after [start()] is not
    the initial one (on a fresh loop the initial sweep is timer 2) but a
    recurring one. *)
Lemma stop_then_sweep_and_recurring_sweep_first :
  ~ (forall cfg : AutoClearService.config,
       AutoClearService.enabled cfg = true ->
       forall dt : Z,
         AutoClearService.sweeps
           (AutoClearService.wait dt
              (AutoClearService.stop
                 (AutoClearService.start cfg (AutoClearService.new Timers.boot)))) = [])
  /\ ~ (forall cfg : AutoClearService.config,
          AutoClearService.enabled cfg = true ->
          forall dt : Z,
            match AutoClearService.sweeps
                    (AutoClearService.wait dt
                       (AutoClearService.start cfg (AutoClearService.new Timers.boot))) with
            | first :: _ => Timers.by_timer first = 2%nat
            | [] => True
            end).
Proof.
  split; intros H.
  - specialize (H example_config eq_refl 5000%Z). vm_compute in H. discriminate H.
  - specialize (H brisk_config eq_refl 1000%Z). vm_compute in H. discriminate H.
Qed.

(** C2, amended. With retention enabled, [start()] on a stopped scheduler
    makes it running and arms two timers: a recurring one, whose period is
    the configured interval when that lies between 1 and 2147483647 ms and
    1 ms otherwise, and a one-shot one due 5000 ms after the call, for the
    initial sweep. The initial sweep is due before the first recurring
    sweep exactly when the configured interval is above 5000 and at most
    2147483647 ms; on a loop with no other timer, the sweeps that follow
    [start()] are the initial one, 5000 ms after the call, and recurring
    ones, none of them before one period has passed. After [stop()],
    whenever it is called, the scheduler is stopped and the recurring timer
    never fires again. *)
Theorem start_arms_two_timers_and_stop_cancels_the_recurring_one :
  forall (cfg : AutoClearService.config) (l : Timers.loop),
  AutoClearService.enabled cfg = true ->
  let started := AutoClearService.start cfg (AutoClearService.new l) in
  let every :=
    (if ((1 <=? AutoClearService.interval cfg)
         && (AutoClearService.interval cfg <=? 2147483647))%Z%bool
     then AutoClearService.interval cfg else 1)%Z in
  let recurring :=
    {| Timers.id := Timers.next_id l;
       Timers.due := Timers.now l + every;
       Timers.every := Some every |} in
  let initial :=
    {| Timers.id := S (Timers.next_id l);
       Timers.due := Timers.now l + 5000;
       Timers.every := None |} in
  AutoClearService.isRunning started = true
  /\ AutoClearService.intervalId started = Some (Timers.id recurring)
  /\ Timers.armed (AutoClearService.timers started)
     = (Timers.armed l ++ [recurring; initial])%list
  /\ ((Timers.due initial <? Timers.due recurring)%Z
      = ((5000 <? AutoClearService.interval cfg)
         && (AutoClearService.interval cfg <=? 2147483647))%Z%bool)
  /\ (Timers.armed l = [] ->
      forall dt : Z,
        (forall f : Timers.firing,
           In f (AutoClearService.sweeps (AutoClearService.wait dt started)) ->
           In f (Timers.fired l)
           \/ f = {| Timers.at_time := Timers.now l + 5000;
                     Timers.by_timer := Timers.id initial |}
           \/ (Timers.by_timer f = Timers.id recurring
               /\ (Timers.now l + every <= Timers.at_time f)%Z))
        /\ ((5000 <= dt)%Z ->
            In {| Timers.at_time := Timers.now l + 5000;
                  Timers.by_timer := Timers.id initial |}
               (AutoClearService.sweeps (AutoClearService.wait dt started))))
  /\ forall dt1 dt2 : Z,
       let stopped := AutoClearService.stop (AutoClearService.wait dt1 started) in
       AutoClearService.isRunning stopped = false
       /\ AutoClearService.intervalId stopped = None
       /\ forall f : Timers.firing,
            In f (AutoClearService.sweeps (AutoClearService.wait dt2 stopped)) ->
            In f (AutoClearService.sweeps stopped)
            \/ Timers.by_timer f <> Timers.id recurring.
Proof.
  intros cfg l Hen started every recurring initial.
  fold (period (AutoClearService.interval cfg)) in every.
  pose proof (period_positive (AutoClearService.interval cfg)) as Hpos. fold every in Hpos.
  assert (started =
          {| AutoClearService.intervalId := Some (Timers.next_id l);
             AutoClearService.isRunning := true;
             AutoClearService.timers :=
               {| Timers.now := Timers.now l;
                  Timers.armed := (Timers.armed l ++ [recurring; initial])%list;
                  Timers.next_id := S (S (Timers.next_id l));
                  Timers.fired := Timers.fired l |} |}) as Hstarted.
  { subst started. unfold AutoClearService.start. rewrite Hen.
    cbn. rewrite <- app_assoc. reflexivity. }
  rewrite Hstarted. cbn [AutoClearService.isRunning AutoClearService.intervalId
                         AutoClearService.timers Timers.armed Timers.id].
  split; [reflexivity|]. split; [reflexivity|]. split; [reflexivity|].
  split; [|split].
  - subst initial recurring. cbn [Timers.due]. subst every. unfold period in *.
    destruct (1 <=? AutoClearService.interval cfg)%Z eqn:H1;
      destruct (AutoClearService.interval cfg <=? 2147483647)%Z eqn:H2;
      destruct (5000 <? AutoClearService.interval cfg)%Z eqn:H3;
      cbn [andb]; rewrite ?Z.ltb_lt, ?Z.ltb_ge;
      rewrite ?Z.leb_le, ?Z.leb_gt, ?Z.ltb_lt, ?Z.ltb_ge in H1, H2, H3; lia.
  - clearbody every. subst recurring initial.
    intros Hl dt. unfold AutoClearService.sweeps, AutoClearService.wait, Timers.advance.
    cbn [AutoClearService.timers Timers.fired Timers.armed Timers.now].
    rewrite Hl, app_nil_l. cbn [flat_map]. rewrite app_nil_r.
    split.
    + intros f Hf. apply in_app_iff in Hf as [Hf|Hf]; [now left|right].
      apply in_order_In, in_app_iff in Hf as [Hf|Hf].
      * right. unfold Timers.firings_of in Hf. cbn [Timers.due Timers.every Timers.id] in Hf.
        destruct (_ <=? _)%Z; [|destruct Hf].
        apply in_map_iff in Hf as (k & <- & _). cbn [Timers.by_timer Timers.at_time].
        split; [reflexivity|].
        assert (0 <= Z.of_nat k * every)%Z by (apply Z.mul_nonneg_nonneg; lia). lia.
      * left. unfold Timers.firings_of in Hf. cbn [Timers.due Timers.every Timers.id] in Hf.
        destruct (_ <=? _)%Z; [|destruct Hf]. destruct Hf as [<-|[]]. reflexivity.
    + intros Hdt. apply in_app_iff. right. apply in_order_In, in_app_iff. right.
      unfold Timers.firings_of. cbn [Timers.due Timers.every Timers.id].
      destruct (_ <=? _)%Z eqn:Hdue; [now left|].
      apply Z.leb_gt in Hdue. lia.
  - intros dt1 dt2. repeat split.
    intros f Hf. unfold AutoClearService.sweeps in *.
    cbn [AutoClearService.stop AutoClearService.wait AutoClearService.intervalId
         AutoClearService.timers] in *.
    apply advance_fires_armed_timers in Hf as [Hf|(tm & Htm & Hid)]; [now left|right].
    rewrite Hid. eapply clearInterval_disarms, Htm.
Qed.

Lemma start_arms_two_timers_and_stop_cancels_the_recurring_one_witness :
  AutoClearService.isRunning
    (AutoClearService.start example_config (AutoClearService.new Timers.boot)) = true.
Proof.
  exact (proj1 (start_arms_two_timers_and_stop_cancels_the_recurring_one
                  example_config Timers.boot eq_refl)).
Defined.

(** ** The sweep *)

Section SweepFacts.
Import Pg DatabaseService AutoClearService.

(** Whatever calls fail, [clearCompletedJobs] and [clearFailedJobs] return
    an object or throw, and give their client back. *)
Lemma clearJobsInState_completes (state label : string) (s : store)
  (plan : list (option string)) (k : nat) (jr : list event) (co : list string) :
  let run := clearJobsInState state label
               {| committed := s; client := NoClient; faults := plan; calls := k;
                  journal := jr; console := co |} in
  ((exists properties, fst run = Js.Return (Js.Obj properties))
   \/ (exists e, fst run = Js.Throw e))
  /\ client (snd run) = NoClient.
Proof.
  intros run. subst run.
  remember (clearJobsInState state label
              {| committed := s; client := NoClient; faults := plan; calls := k;
                 journal := jr; console := co |}) as r eqn:E.
  unfold clearJobsInState in E.
  destruct (filter (in_state (Js.Str state)) (jobs s)) as [|j rest] eqn:H.
  all: run_plan E plan ltac:(first [ rewrite H in E | rewrite parseInt_dec in E
                                   | rewrite strict_eq_num_of_nat in E ]).
  all: subst r; cbn [fst snd client]; split; [|reflexivity].
  all: first [ left; eexists; reflexivity | right; eexists; reflexivity ].
Qed.

End SweepFacts.

(** C7, as stated, fails: the result of a sweep holds the outcome of each
    branch and nothing else. On the example store (one Job done, two failed)
    three Jobs are deleted, and no property of the result is that total. *)
Lemma sweep_result_has_no_total :
  ~ (forall (cfg : AutoClearService.config) (s : Pg.store),
       AutoClearService.clearCompleted cfg = true ->
       AutoClearService.clearFailed cfg = true ->
       exists (result : Js.value) (key : string),
         fst (AutoClearService.performAutoClear cfg (Pg.start s [])) = Js.Return result
         /\ Js.get result key
            = Js.Return (Js.Num (Z.of_nat (length (Pg.jobs s))
                                 - Z.of_nat (length (Pg.jobs
                                      (Pg.committed
                                         (snd (AutoClearService.performAutoClear cfg
                                                 (Pg.start s []))))))))).
Proof.
  intros H.
  destruct (H example_config example_store eq_refl eq_refl) as (result & key & Hr & Hk).
  vm_compute in Hr. injection Hr as <-.
  vm_compute in Hk.
  destruct key as [|[[] [] [] [] [] [] [] []] key]; try discriminate Hk.
  all: repeat (destruct key as [|[[] [] [] [] [] [] [] []] key]; try discriminate Hk).
Qed.

(** C7, amended. With both branches enabled, a sweep runs the
    clear-completed branch and then, on the world that branch left whatever
    its outcome, the clear-failed branch; it never throws; and its result is
    the object with exactly two properties, one per branch: the value the
    branch returned (count deleted and identifiers) under [completed] or
    [failed], or the message of the error it threw under [completedError]
    or [failedError]. The aggregate total is written to the console only. *)
Theorem sweep_isolates_its_branches :
  forall (cfg : AutoClearService.config) (w : Pg.world),
  AutoClearService.clearCompleted cfg = true ->
  AutoClearService.clearFailed cfg = true ->
  Pg.client w = Pg.NoClient ->
  let w0 := logged "Performing auto-clear..." w in
  let completed := DatabaseService.clearCompletedJobs w0 in
  let w1 := logged (report "completed" (fst completed)) (snd completed) in
  let failed := DatabaseService.clearFailedJobs w1 in
  let w2 := logged (report "failed" (fst failed)) (snd failed) in
  let total := tally (tally (Js.Num 0) (fst completed)) (fst failed) in
  AutoClearService.performAutoClear cfg w
  = (Js.Return (Js.Obj [slot "completed" (fst completed); slot "failed" (fst failed)]),
     logged (total_line total) w2).
Proof.
  intros cfg w Hc Hf Hclient w0 completed w1 failed w2 total.
  destruct w as [s c plan k jr co]. cbn in Hclient. subst c.
  unfold AutoClearService.performAutoClear, AutoClearService.branch,
    AutoClearService.console_error.
  rewrite Hc, Hf.
  unfold Pg.try_catch, Pg.bind.
  subst total w2 failed w1 completed w0.
  unfold logged, DatabaseService.clearCompletedJobs, DatabaseService.clearFailedJobs.
  cbn [Pg.console_log snd fst Pg.committed Pg.client Pg.faults Pg.calls Pg.journal
       Pg.console].
  pose proof (clearJobsInState_completes "done" "completed" s plan k jr
                (co ++ ["Performing auto-clear..."])) as H1.
  cbv zeta in H1.
  destruct (DatabaseService.clearJobsInState "done" "completed" _) as [c1 x1].
  destruct x1 as [s1 cl1 plan1 k1 jr1 co1].
  cbn [fst snd Pg.client] in H1. destruct H1 as [H1 ->].
  destruct H1 as [[p1 ->]|[e1 ->]].
  - cbn [fst snd Js.get Js.set Js.assign Pg.lift Pg.ret Pg.console_log Pg.throw
         Pg.committed Pg.client Pg.faults Pg.calls Pg.journal Pg.console
         slot report cleared_count tally Js.field].
    pose proof (clearJobsInState_completes "failed" "failed" s1 plan1 k1 jr1
                  (co1 ++ ["Cleared " ++ Js.to_string
                                  (Js.or match Js.lookup p1 "deletedJobsCount" with
                                         | Some v => v
                                         | None => Js.Undefined
                                         end (Js.Num 0)) ++ " completed jobs"])) as H2.
    cbv zeta in H2.
    destruct (DatabaseService.clearJobsInState "failed" "failed" _) as [c2 x2].
    destruct x2 as [s2 cl2 plan2 k2 jr2 co2].
    cbn [fst snd Pg.client] in H2. destruct H2 as [H2 ->].
    destruct H2 as [[p2 ->]|[e2 ->]].
    + cbn [fst snd Js.get Js.set Js.assign Pg.lift Pg.ret Pg.console_log Pg.throw
           Pg.committed Pg.client Pg.faults Pg.calls Pg.journal Pg.console
           slot report cleared_count tally Js.field String.eqb Ascii.eqb Bool.eqb].
      unfold total_line.
      destruct (Js.gt _ (Js.Num 0)); reflexivity.
    + cbn [fst snd Js.get Js.set Js.assign Pg.lift Pg.ret Pg.console_log Pg.throw
           Pg.committed Pg.client Pg.faults Pg.calls Pg.journal Pg.console
           slot report cleared_count tally Js.field String.eqb Ascii.eqb Bool.eqb append].
      unfold total_line.
      destruct (Js.gt _ (Js.Num 0)); reflexivity.
  - cbn [fst snd Js.get Js.set Js.assign Pg.lift Pg.ret Pg.console_log Pg.throw
         Pg.committed Pg.client Pg.faults Pg.calls Pg.journal Pg.console
         slot report cleared_count tally Js.field].
    pose proof (clearJobsInState_completes "failed" "failed" s1 plan1 k1 jr1
                  (co1 ++ ["Error clearing completed jobs: " ++ Js.message e1])) as H2.
    cbv zeta in H2.
    destruct (DatabaseService.clearJobsInState "failed" "failed" _) as [c2 x2].
    destruct x2 as [s2 cl2 plan2 k2 jr2 co2].
    cbn [fst snd Pg.client] in H2. destruct H2 as [H2 ->].
    destruct H2 as [[p2 ->]|[e2 ->]].
    + cbn [fst snd Js.get Js.set Js.assign Pg.lift Pg.ret Pg.console_log Pg.throw
           Pg.committed Pg.client Pg.faults Pg.calls Pg.journal Pg.console
           slot report cleared_count tally Js.field String.eqb Ascii.eqb Bool.eqb append].
      unfold total_line.
      destruct (Js.gt _ (Js.Num 0)); reflexivity.
    + cbn [fst snd Js.get Js.set Js.assign Pg.lift Pg.ret Pg.console_log Pg.throw
           Pg.committed Pg.client Pg.faults Pg.calls Pg.journal Pg.console
           slot report cleared_count tally Js.field String.eqb Ascii.eqb Bool.eqb append].
      unfold total_line.
      destruct (Js.gt _ (Js.Num 0)); reflexivity.
Qed.

Lemma sweep_isolates_its_branches_witness :
  fst (AutoClearService.performAutoClear example_config
         (Pg.start example_store [None; None; Some "deadlock detected"]))
  = Js.Return
      (Js.Obj [slot "completed"
                 (fst (DatabaseService.clearCompletedJobs
                         (logged "Performing auto-clear..."
                            (Pg.start example_store [None; None; Some "deadlock detected"]))));
               slot "failed"
                 (fst (DatabaseService.clearFailedJobs
                         (logged
                            (report "completed"
                               (fst (DatabaseService.clearCompletedJobs
                                       (logged "Performing auto-clear..."
                                          (Pg.start example_store
                                             [None; None; Some "deadlock detected"])))))
                            (snd (DatabaseService.clearCompletedJobs
                                    (logged "Performing auto-clear..."
                                       (Pg.start example_store
                                          [None; None; Some "deadlock detected"])))))))]).
Proof.
  exact (f_equal fst
           (sweep_isolates_its_branches example_config
              (Pg.start example_store [None; None; Some "deadlock detected"])
              eq_refl eq_refl eq_refl)).
Defined.

(** * Further properties of the validator and of [parseInt] *)

Section ParsingFacts.









(** [parseInt(v) || d] is a number: [parseInt] gives an integer or [NaN],
    and [NaN] and 0 are falsy. *)
Lemma parsed_or_default (v : Js.value) (d : Z) :
  exists n : Z, Js.or (Js.parseInt v) (Js.Num d) = Js.Num n /\ (n <> 0%Z \/ n = d).
Proof.
  unfold Js.parseInt.
  destruct (Js.strip_sign _) as [negative s]. destruct (Js.strip_radix s) as [radix s'].
  destruct (Js.parse_digits radix s' None) as [n|]; unfold Js.or; cbn [Js.truthy].
  - destruct ((if negative then - n else n) =? 0)%Z eqn:E; cbn [negb].
    + exists d. now split; [|right].
    + exists (if negative then (- n)%Z else n). split; [reflexivity|left].
      now apply Z.eqb_neq.
  - exists d. now split; [|right].
Qed.

Lemma test_length (classes : list (ascii -> bool)) : forall s : string,
  Validator.test classes s = true -> String.length s = length classes.
Proof.
  induction classes as [|class classes IH]; intros [|c s]; cbn; try discriminate.
  - reflexivity.
  - intros H. apply andb_true_iff in H as [_ H]. now rewrite (IH s H).
Qed.

End ParsingFacts.





(** X3. A string that [uuidRegex] matches has 36 characters, and
    [validateJobId] returns it unchanged. *)
Theorem validateJobId_accepts_a_uuid :
  forall s : string,
  Validator.test Validator.uuidRegex s = true ->
  String.length s = 36%nat
  /\ Validator.validateJobId (Js.Str s) = Js.Return (Js.Str s).
Proof.
  intros s H. pose proof (test_length _ _ H) as Hlen.
  change (length Validator.uuidRegex) with 36%nat in Hlen.
  split; [exact Hlen|].
  unfold Validator.validateJobId. cbn [Js.truthy Js.to_string].
  destruct s as [|c s]; [discriminate|]. cbn [String.eqb negb].
  rewrite H. cbn [negb]. now rewrite andb_false_r.
Qed.

Lemma validateJobId_accepts_a_uuid_witness :
  Validator.validateJobId (Js.Str "123E4567-e89b-42d3-a456-426614174000")
  = Js.Return (Js.Str "123E4567-e89b-42d3-a456-426614174000").
Proof.
  exact (proj2 (validateJobId_accepts_a_uuid "123E4567-e89b-42d3-a456-426614174000" eq_refl)).
Defined.

(** X4. Whatever [validatePagination] is given, when it returns, it returns
    an object holding a limit, which is an integer between 1 and 100, and an
    offset, which is not below 0. *)
Theorem validatePagination_returns_a_page_in_range :
  forall (limit offset result : Js.value),
  Validator.validatePagination limit offset = Js.Return result ->
  exists (l : Z) (parsedOffset : Js.value),
    result = Js.Obj [("limit", Js.Num l); ("offset", parsedOffset)]
    /\ (1 <= l <= 100)%Z /\ Js.lt parsedOffset (Js.Num 0) = false.
Proof.
  intros limit offset result. unfold Validator.validatePagination.
  destruct (parsed_or_default limit 50) as (l & -> & _).
  cbn [Js.gt Js.lt].
  destruct (100 <? l)%Z eqn:H1; [discriminate|].
  destruct (l <? 1)%Z eqn:H2; [discriminate|].
  destruct (Js.lt (Js.or (Js.parseInt offset) (Js.Num 0)) (Js.Num 0)) eqn:H3; [discriminate|].
  intros [= <-]. exists l, (Js.or (Js.parseInt offset) (Js.Num 0)).
  apply Z.ltb_ge in H1, H2. repeat split; try lia. exact H3.
Qed.

Lemma validatePagination_returns_a_page_in_range_witness :
  exists (l : Z) (parsedOffset : Js.value),
    Js.Obj [("limit", Js.Num 20); ("offset", Js.Num 40)]
    = Js.Obj [("limit", Js.Num l); ("offset", parsedOffset)]
    /\ (1 <= l <= 100)%Z /\ Js.lt parsedOffset (Js.Num 0) = false.
Proof.
  exact (validatePagination_returns_a_page_in_range (Js.Str "20") (Js.Str "40") _ eq_refl).
Defined.


(** X6. On objects [validateSearchParams] is idempotent: validating its
    own result changes nothing. *)
Theorem validateSearchParams_is_idempotent :
  forall given : list (string * Js.value),
  Validator.validateSearchParams (Validator.validateSearchParams (Js.Obj given))
  = Validator.validateSearchParams (Js.Obj given).
Proof.
  intros given. remember (Js.Obj given) as params eqn:Hparams. clear Hparams.
  remember (Validator.validateSearchParams params) as r eqn:Hr.
  unfold Validator.validateSearchParams in Hr.
  set (j := Js.field params "jobId") in Hr. set (st := Js.field params "state") in Hr.
  set (u := Js.field params "user_id") in Hr. set (p := Js.field params "partial") in Hr.
  destruct (Js.truthy j) eqn:Hj;
    destruct (Js.truthy st && Validator.is_state st)%bool eqn:Hst;
    destruct (Js.truthy u) eqn:Hu;
    destruct (Js.strict_eq_str p "true" || Js.strict_eq_str p "false")%bool eqn:Hp;
    cbn [Js.set Js.assign String.eqb Ascii.eqb Bool.eqb] in Hr; subst r;
    unfold Validator.validateSearchParams;
    cbn [Js.field Js.lookup String.eqb Ascii.eqb Bool.eqb];
    rewrite ?Hj, ?Hst, ?Hu, ?Hp;
    cbn [Js.truthy Js.strict_eq_str Validator.is_state existsb andb orb];
    cbn [Js.set Js.assign String.eqb Ascii.eqb Bool.eqb]; reflexivity.
Qed.
(** * Further properties of the query builder and of the listings *)

Section ListingFacts.

Lemma truthy_supplied (v : Js.value) : Js.truthy v = true -> supplied v = true.
Proof. destruct v; cbn; congruence. Qed.

(** The page [validatePagination] returns. *)
Lemma validatePagination_page (limit offset page : Js.value) :
  Validator.validatePagination limit offset = Js.Return page ->
  exists l o : Z,
    page = Js.Obj [("limit", Js.Num l); ("offset", Js.Num o)]
    /\ (1 <= l <= 100)%Z /\ (0 <= o)%Z.
Proof.
  unfold Validator.validatePagination.
  destruct (parsed_or_default limit 50) as (l & -> & _).
  destruct (parsed_or_default offset 0) as (o & -> & _).
  cbn [Js.gt Js.lt].
  destruct (100 <? l)%Z eqn:H1; [discriminate|].
  destruct (l <? 1)%Z eqn:H2; [discriminate|].
  destruct (o <? 0)%Z eqn:H3; [discriminate|].
  intros [= <-]. exists l, o. apply Z.ltb_ge in H1, H2, H3. repeat split; lia.
Qed.

End ListingFacts.

(** A hypothesis on what a call sequence builds, as the statement the
    sequence asks for. *)
Ltac built_statement H :=
  cbv beta iota delta [List.app] in H;
  match type of H with
  | QueryBuilder.run ?cs = _ =>
      let R := fresh "R" in
      pose proof (run_is_statement cs) as R;
      cbn [selected fold_left] in R;
      rewrite R in H; clear R
  end.

(** The page of a listing, validated. *)
Ltac validated_page H :=
  unfold DatabaseService.getJobsWithStats_request, DatabaseService.getStreams_request in H;
  match type of H with
  | context [Validator.validatePagination ?a ?b] =>
      let P := fresh "P" in
      let l := fresh "l" in
      let o := fresh "o" in
      destruct (Validator.validatePagination a b) eqn:P; [|discriminate H];
      apply validatePagination_page in P as (l & o & -> & ? & ?)
  end;
  cbn [Js.field Js.lookup String.eqb Ascii.eqb Bool.eqb] in H.

(** The conditions and the parameters of a statement whose values are
    known to be supplied. *)
Ltac supplied_values_known :=
  repeat match goal with
         | T : Js.truthy ?v = true |- _ => apply truthy_supplied in T
         end;
  repeat (cbn [conditions supplied_values supplied];
          repeat match goal with
                 | T : supplied ?v = true |- context [supplied ?v] => rewrite T
                 end).

(** X7. The text of the statement [getJobsWithStats] sends depends on which
    search conditions apply and on nothing else: two requests (with objects
    for arguments, as the routes make them) with the same conditions send
    the same text, whatever the values searched for and the page asked for.
    Values travel as parameters only. *)
Theorem getJobsWithStats_text_ignores_the_values :
  forall (given1 paging1 given2 paging2 : list (string * Js.value))
         (b1 b2 : QueryBuilder.built),
  DatabaseService.getJobsWithStats_request (Js.Obj given1) (Js.Obj paging1) = Js.Return b1 ->
  DatabaseService.getJobsWithStats_request (Js.Obj given2) (Js.Obj paging2) = Js.Return b2 ->
  search_shape (Js.Obj given1) = search_shape (Js.Obj given2) ->
  QueryBuilder.query b1 = QueryBuilder.query b2.
Proof.
  intros given1 paging1 given2 paging2 b1 b2.
  remember (Js.Obj given1) as search1 eqn:E1. remember (Js.Obj paging1) as page1 eqn:E2.
  remember (Js.Obj given2) as search2 eqn:E3. remember (Js.Obj paging2) as page2 eqn:E4.
  clear E1 E2 E3 E4. intros H1 H2 Hshape.
  unfold search_shape in Hshape. cbv zeta in Hshape.
  validated_page H1. validated_page H2. cbv zeta in H1, H2.
  set (V1 := Validator.validateSearchParams search1) in *.
  set (V2 := Validator.validateSearchParams search2) in *.
  set (j1 := Js.field V1 "jobId") in *. set (p1 := Js.field V1 "partial") in *.
  set (s1 := Js.field V1 "state") in *. set (u1 := Js.field V1 "user_id") in *.
  set (j2 := Js.field V2 "jobId") in *. set (p2 := Js.field V2 "partial") in *.
  set (s2 := Js.field V2 "state") in *. set (u2 := Js.field V2 "user_id") in *.
  clearbody j1 p1 s1 u1 j2 p2 s2 u2. clear V1 V2.
  injection Hshape as Hj Hp Hs Hu.
  destruct (Js.truthy j1) eqn:Tj1; destruct (Js.strict_eq_str p1 "true") eqn:Tp1;
    destruct (Js.truthy s1) eqn:Ts1; destruct (Js.truthy u1) eqn:Tu1;
    symmetry in Hj, Hp, Hs, Hu; rewrite ?Hj, ?Hp, ?Hs, ?Hu in H2;
    built_statement H1; built_statement H2;
    injection H1 as <-; injection H2 as <-;
    cbn [QueryBuilder.query]; unfold statement;
    supplied_values_known; vm_compute; reflexivity.
Qed.

Lemma getJobsWithStats_text_ignores_the_values_witness :
  QueryBuilder.query
    {| QueryBuilder.query := jobs_by_id_text;
       QueryBuilder.built_params := [Js.Str "7"; Js.Num 50; Js.Num 0] |}
  = QueryBuilder.query
      {| QueryBuilder.query := jobs_by_id_text;
         QueryBuilder.built_params := [Js.Str "1 OR 1=1"; Js.Num 10; Js.Num 20] |}.
Proof.
  exact (getJobsWithStats_text_ignores_the_values
           [("jobId", Js.Str "7")] []
           [("jobId", Js.Str "1 OR 1=1")]
           [("limit", Js.Str "10"); ("offset", Js.Str "20")]
           {| QueryBuilder.query := jobs_by_id_text;
              QueryBuilder.built_params := [Js.Str "7"; Js.Num 50; Js.Num 0] |}
           {| QueryBuilder.query := jobs_by_id_text;
              QueryBuilder.built_params := [Js.Str "1 OR 1=1"; Js.Num 10; Js.Num 20] |}
           ltac:(vm_compute; reflexivity) ltac:(vm_compute; reflexivity)
           ltac:(vm_compute; reflexivity)).
Defined.

(** * Further properties: a second [build()], and errors on their way out *)

(** X9. [build()] counts on being called once. On a builder with a select,
    a limit and an offset, a second [build()] pushes the limit and the
    offset a second time and moves their markers one up, so that the LIMIT
    marker of the second statement names the offset pushed by the first. *)
Theorem build_twice_pushes_the_page_twice :
  forall (this : QueryBuilder.t) (fs : list string),
  QueryBuilder.selectFields this = Some fs ->
  supplied_or_undefined (QueryBuilder.limitValue this) = true ->
  supplied_or_undefined (QueryBuilder.offsetValue this) = true ->
  let i := QueryBuilder.paramIndex this in
  let lim := QueryBuilder.limitValue this in
  let off := QueryBuilder.offsetValue this in
  let first := QueryBuilder.build this in
  let second := QueryBuilder.build (snd first) in
  (exists text : string,
     fst first
     = Js.Return {| QueryBuilder.query :=
                      text ++ " LIMIT " ++ positional i ++ " OFFSET " ++ positional (S i);
                    QueryBuilder.built_params :=
                      (QueryBuilder.params this ++ [lim; off])%list |}
     /\ fst second
        = Js.Return {| QueryBuilder.query :=
                         text ++ " LIMIT " ++ positional (S i)
                         ++ " OFFSET " ++ positional (S (S i));
                       QueryBuilder.built_params :=
                         (QueryBuilder.params this ++ [lim; off; lim; off])%list |})
  /\ nth_error (QueryBuilder.params this ++ [lim; off; lim; off])
               (length (QueryBuilder.params this) + 1)
     = Some off.
Proof.
  intros this fs Hs Hl Ho i lim off first second.
  assert (Js.not_null (QueryBuilder.limitValue this) = true) as Hl'
    by (destruct (QueryBuilder.limitValue this); try reflexivity; discriminate).
  assert (Js.not_null (QueryBuilder.offsetValue this) = true) as Ho'
    by (destruct (QueryBuilder.offsetValue this); try reflexivity; discriminate).
  split.
  - exists (QueryBuilder.clauses fs this).
    subst first second i lim off. unfold QueryBuilder.build.
    rewrite Hs, Hl', Ho'.
    cbn [fst snd QueryBuilder.selectFields QueryBuilder.limitValue QueryBuilder.offsetValue
         QueryBuilder.params QueryBuilder.paramIndex].
    rewrite Hl', Ho'. cbn [fst snd].
    change (QueryBuilder.marker ?k) with (positional k).
    split.
    + now rewrite <- !app_assoc, !append_associative.
    + unfold QueryBuilder.clauses.
      cbn [QueryBuilder.fromTable QueryBuilder.joins QueryBuilder.whereConditions
           QueryBuilder.groupByFields QueryBuilder.orderByClauses].
      now rewrite <- !app_assoc, !append_associative.
  - rewrite nth_error_app2 by lia.
    replace (length (QueryBuilder.params this) + 1 - length (QueryBuilder.params this))%nat
      with 1%nat by lia.
    reflexivity.
Qed.

Lemma build_twice_pushes_the_page_twice_witness :
  nth_error
    (QueryBuilder.params (fold_left QueryBuilder.apply example_calls QueryBuilder.new)
     ++ [Js.Num 10; Js.Num 5; Js.Num 10; Js.Num 5])%list 2
  = Some (Js.Num 5).
Proof.
  exact (proj2 (build_twice_pushes_the_page_twice
                  (fold_left QueryBuilder.apply example_calls QueryBuilder.new) ["id"]
                  eq_refl eq_refl eq_refl)).
Defined.


(** * Further properties of the retention scheduler *)

Section SchedulerFacts.
Import Timers.

Let recurring (tm : timer) : bool :=
  match every tm with Some _ => true | None => false end.

Lemma rearm_recurring (t : Z) (l : list timer) :
  map id (filter recurring (flat_map (rearm t) l)) = map id (filter recurring l).
Proof.
  induction l as [|tm l IH]; [reflexivity|].
  cbn [flat_map]. rewrite filter_app, map_app, IH. cbn [filter].
  unfold rearm, recurring at 1 3.
  destruct (due tm <=? t)%Z; destruct (every tm) eqn:E; cbn [filter map app every id];
    rewrite ?E; reflexivity.
Qed.

Lemma filter_filter {A : Type} (f g : A -> bool) (l : list A) :
  filter f (filter g l) = filter g (filter f l).
Proof.
  induction l as [|a l IH]; [reflexivity|]. cbn [filter].
  destruct (f a) eqn:Hf; destruct (g a) eqn:Hg; cbn [filter]; rewrite ?Hf, ?Hg, IH;
    reflexivity.
Qed.

Lemma clearInterval_recurring (h : nat) (l : loop) :
  recurring_timers l = [h] -> recurring_timers (clearInterval h l) = [].
Proof.
  unfold recurring_timers, clearInterval. cbn [armed]. fold recurring.
  rewrite filter_filter.
  destruct (filter recurring (armed l)) as [|tm [|tm' rest]]; cbn [map]; try discriminate.
  intros [= <-]. cbn [filter]. now rewrite Nat.eqb_refl.
Qed.

End SchedulerFacts.

(** X11. [start()] does nothing on a service that is running, or when
    retention is disabled: calling it twice is calling it once. *)
Theorem start_twice_is_start_once :
  forall (cfg : AutoClearService.config) (this : AutoClearService.t),
  AutoClearService.start cfg (AutoClearService.start cfg this)
  = AutoClearService.start cfg this
  /\ (AutoClearService.enabled cfg = false -> AutoClearService.start cfg this = this)
  /\ (AutoClearService.isRunning this = true -> AutoClearService.start cfg this = this).
Proof.
  intros cfg this. unfold AutoClearService.start.
  destruct (AutoClearService.enabled cfg); cbn [negb].
  - destruct (AutoClearService.isRunning this) eqn:H.
    + rewrite H. repeat split; discriminate.
    + cbn. repeat split; discriminate.
  - repeat split.
Qed.

(** X12. [stop()] does nothing on a service that holds no recurring timer:
    calling it twice is calling it once, and after it the service holds no
    handle. *)
Theorem stop_twice_is_stop_once :
  forall this : AutoClearService.t,
  AutoClearService.stop (AutoClearService.stop this) = AutoClearService.stop this
  /\ AutoClearService.intervalId (AutoClearService.stop this) = None
  /\ (AutoClearService.intervalId this = None -> AutoClearService.stop this = this).
Proof.
  intros this. unfold AutoClearService.stop.
  destruct (AutoClearService.intervalId this) eqn:H; cbn; rewrite ?H; repeat split.
  discriminate.
Qed.

(** X13. Whatever sequence of [start()], [stop()] and waiting a service goes
    through, it is running exactly when it holds the handle of a recurring
    timer, and that timer is then the one recurring timer armed on the loop;
    when it is not running, no recurring timer is armed. A second [start()]
    never arms a second recurring timer, and [stop()] leaves none behind. *)
Theorem one_recurring_timer_at_most :
  forall (cfg : AutoClearService.config) (calls : list AutoClearService.call),
  let this := AutoClearService.run cfg calls in
  match AutoClearService.intervalId this with
  | Some handle =>
      AutoClearService.isRunning this = true
      /\ recurring_timers (AutoClearService.timers this) = [handle]
  | None =>
      AutoClearService.isRunning this = false
      /\ recurring_timers (AutoClearService.timers this) = []
  end.
Proof.
  intros cfg calls. unfold AutoClearService.run.
  assert (forall this : AutoClearService.t,
            match AutoClearService.intervalId this with
            | Some handle =>
                AutoClearService.isRunning this = true
                /\ recurring_timers (AutoClearService.timers this) = [handle]
            | None =>
                AutoClearService.isRunning this = false
                /\ recurring_timers (AutoClearService.timers this) = []
            end ->
            let this' := fold_left (AutoClearService.apply cfg) calls this in
            match AutoClearService.intervalId this' with
            | Some handle =>
                AutoClearService.isRunning this' = true
                /\ recurring_timers (AutoClearService.timers this') = [handle]
            | None =>
                AutoClearService.isRunning this' = false
                /\ recurring_timers (AutoClearService.timers this') = []
            end) as Hgen.
  { induction calls as [|c calls IH]; intros this Hinv; [exact Hinv|].
    cbn [fold_left]. apply IH. clear IH.
    destruct c as [| |dt]; cbn [AutoClearService.apply].
    - unfold AutoClearService.start.
      destruct (AutoClearService.enabled cfg); cbn [negb]; [|exact Hinv].
      case_eq (AutoClearService.isRunning this); intros Hrun; [exact Hinv|].
      destruct (AutoClearService.intervalId this); [destruct Hinv; congruence|].
      destruct Hinv as [_ Hnone].
      cbn [Timers.setInterval Timers.setTimeout Timers.arm AutoClearService.intervalId
           AutoClearService.isRunning AutoClearService.timers Timers.next_id Timers.now
           Timers.armed].
      split; [reflexivity|].
      unfold recurring_timers in *. cbn [Timers.armed].
      rewrite <- app_assoc, filter_app, map_app, Hnone. reflexivity.
    - unfold AutoClearService.stop.
      destruct (AutoClearService.intervalId this) as [h|] eqn:Hid.
      + cbn [AutoClearService.intervalId AutoClearService.isRunning AutoClearService.timers].
        split; [reflexivity|]. apply clearInterval_recurring, Hinv.
      + rewrite Hid. exact Hinv.
    - unfold AutoClearService.wait.
      cbn [AutoClearService.intervalId AutoClearService.isRunning AutoClearService.timers].
      unfold recurring_timers in *. unfold Timers.advance. cbn [Timers.armed].
      rewrite rearm_recurring. exact Hinv. }
  apply Hgen. cbn. split; reflexivity.
Qed.
(** * Further properties of the database service and of the sweep *)

Section StoreFacts.
Import Pg DatabaseService.

(** Whatever calls fail, [clearCompletedJobs] and [clearFailedJobs] commit
    all of their deletes or none. *)
Lemma clearJobsInState_commits (state label : string) (s : store)
  (plan : list (option string)) :
  let run := clearJobsInState state label (start s plan) in
  committed (snd run) = s \/ committed (snd run) = without_jobs_in_state state s.
Proof.
  intros run. subst run.
  remember (clearJobsInState state label (start s plan)) as r eqn:E.
  unfold clearJobsInState in E.
  destruct (filter (in_state (Js.Str state)) (jobs s)) as [|j rest] eqn:H.
  all: run_plan E plan ltac:(first [ rewrite H in E | rewrite parseInt_dec in E
                                   | rewrite strict_eq_num_of_nat in E ]).
  all: subst r; cbn [fst snd committed].
  all: first [ left; reflexivity | right; reflexivity ].
Qed.

(** Whatever the identifier and whatever calls fail, [deleteJob] commits all
    of its deletes or none, and gives its client back. *)
Lemma deleteJob_commits (s : store) (jobId : Js.value) (plan : list (option string)) :
  let run := deleteJob jobId (start s plan) in
  (committed (snd run) = s \/ committed (snd run) = without_job jobId s)
  /\ client (snd run) = NoClient.
Proof.
  intros run. subst run.
  remember (deleteJob jobId (start s plan)) as r eqn:E.
  unfold deleteJob in E.
  destruct (bigint jobId) as [cast|e] eqn:Hcast;
    destruct (filter (has_id jobId) (jobs s)) as [|j rest] eqn:H.
  all: run_plan E plan ltac:(rewrite H in E).
  all: subst r; cbn [fst snd committed client]; split; [|reflexivity].
  all: first [ left; reflexivity | right; reflexivity ].
Qed.

Lemma existsb_filter {A : Type} (f keep : A -> bool) (l : list A) :
  (forall a, In a l -> f a = true -> keep a = true) ->
  existsb f l = true -> existsb f (filter keep l) = true.
Proof.
  induction l as [|a l IH]; cbn [existsb filter]; intros Hk H; [discriminate|].
  apply orb_true_iff in H as [H|H].
  - rewrite (Hk a (or_introl eq_refl) H). cbn [existsb]. now rewrite H.
  - assert (existsb f (filter keep l) = true) as Hl
      by (apply IH; [intros b Hb; apply Hk; now right|exact H]).
    destruct (keep a); cbn [existsb]; rewrite ?Hl; now rewrite ?orb_true_r.
Qed.

Lemma consistent_spec (s : store) :
  consistent s = true <->
  (forall t : task,
     In t (tasks s) -> existsb (fun j => (job_id j =? task_job_id t)%Z) (jobs s) = true)
  /\ (forall d : task_dep,
        In d (task_deps s) -> existsb (fun j => (job_id j =? dep_job_id d)%Z) (jobs s) = true).
Proof.
  unfold consistent. now rewrite andb_true_iff, !forallb_forall.
Qed.

Lemma without_job_consistent (jobId : Js.value) (s : store) :
  consistent s = true -> consistent (without_job jobId s) = true.
Proof.
  rewrite !consistent_spec. intros [Ht Hd]. split.
  - intros t Hin. cbn [without_job tasks jobs] in *.
    apply filter_In in Hin as [Hin Hkeep].
    apply existsb_filter; [|now apply Ht].
    intros j _ Hj. apply Z.eqb_eq in Hj. unfold matches in *. now rewrite Hj.
  - intros d Hin. cbn [without_job task_deps jobs] in *.
    apply filter_In in Hin as [Hin Hkeep].
    apply existsb_filter; [|now apply Hd].
    intros j _ Hj. apply Z.eqb_eq in Hj. unfold matches in *. now rewrite Hj.
Qed.

Lemma in_state_of_job (state : Js.value) (s : store) (j : job) :
  In j (jobs s) -> in_state state j = true -> of_job_in_state state s (job_id j) = true.
Proof.
  intros Hin Hst. unfold of_job_in_state. apply existsb_exists.
  exists j. split; [now apply filter_In|apply Z.eqb_refl].
Qed.

Lemma without_jobs_in_state_consistent (state : string) (s : store) :
  consistent s = true -> consistent (without_jobs_in_state state s) = true.
Proof.
  rewrite !consistent_spec. intros [Ht Hd]. split.
  - intros t Hin. cbn [without_jobs_in_state tasks jobs] in *.
    apply filter_In in Hin as [Hin Hkeep]. apply negb_true_iff in Hkeep.
    apply existsb_exists. specialize (Ht t Hin). apply existsb_exists in Ht as (j & Hj & Hid).
    exists j. split; [|exact Hid]. apply filter_In. split; [exact Hj|].
    apply negb_true_iff. destruct (in_state (Js.Str state) j) eqn:Hst; [|reflexivity].
    apply Z.eqb_eq in Hid. rewrite <- Hid, (in_state_of_job _ _ _ Hj Hst) in Hkeep.
    discriminate.
  - intros d Hin. cbn [without_jobs_in_state task_deps jobs] in *.
    apply filter_In in Hin as [Hin Hkeep]. apply negb_true_iff in Hkeep.
    apply existsb_exists. specialize (Hd d Hin). apply existsb_exists in Hd as (j & Hj & Hid).
    exists j. split; [|exact Hid]. apply filter_In. split; [exact Hj|].
    apply negb_true_iff. destruct (in_state (Js.Str state) j) eqn:Hst; [|reflexivity].
    apply Z.eqb_eq in Hid. rewrite <- Hid, (in_state_of_job _ _ _ Hj Hst) in Hkeep.
    discriminate.
Qed.

End StoreFacts.

(** X14. [clearFailedJobs], when its calls succeed: with no Job in state
    failed it commits and returns deletedJobsCount 0; with N >= 1 such Jobs
    it returns N and exactly their identifiers, and commits the store
    without them, their Tasks and their dependency rows; the Jobs in other
    states stay as they were. *)
Theorem clearFailedJobs_returns_count_and_ids : forall s : Pg.store,
  let failed := filter (Pg.in_state (Js.Str "failed")) (Pg.jobs s) in
  let run := DatabaseService.clearFailedJobs (Pg.start s []) in
  let after := Pg.committed (snd run) in
  match failed with
  | [] =>
      fst run = Js.Return (Js.Obj [("deletedJobsCount", Js.Num 0);
                                   ("message", Js.Str "No failed jobs found to delete")])
  | _ :: _ =>
      fst run
      = Js.Return
          (Js.Obj [("deletedJobsCount", Js.Num (Z.of_nat (length failed)));
                   ("deletedJobIds",
                    Js.Arr (map (fun j => Js.Str (Js.dec_Z (Pg.job_id j))) failed));
                   ("message",
                    Js.Str ("Successfully deleted "
                            ++ Js.to_string (Js.Num (Z.of_nat (length failed)))
                            ++ " failed job(s)"))])
  end
  /\ after = without_jobs_in_state "failed" s
  /\ Pg.jobs after = filter (fun j => negb (Pg.in_state (Js.Str "failed") j)) (Pg.jobs s).
Proof.
  intros s failed run after. subst after run. unfold DatabaseService.clearFailedJobs.
  destruct failed as [|j rest] eqn:Hfailed; subst failed.
  - destruct (clearJobsInState_none "failed" "failed" s [] eq_refl Hfailed) as (Hr & Hc & _).
    rewrite Hr, Hc. split; [reflexivity|].
    assert (without_jobs_in_state "failed" s = s) as Hsame.
    { unfold without_jobs_in_state, Pg.of_job_in_state. rewrite Hfailed. cbn [existsb negb].
      assert (forall (A : Type) (l : list A), filter (fun _ => true) l = l) as Hall
        by (induction l as [|a l IH]; cbn; congruence).
      rewrite !Hall. destruct s as [js ts ds]. cbn [Pg.jobs Pg.tasks Pg.task_deps] in *.
      f_equal. clear -Hfailed.
      induction js as [|a js IH]; [reflexivity|]. cbn [filter] in *.
      destruct (Pg.in_state (Js.Str "failed") a); [discriminate|].
      cbn [negb]. now rewrite IH. }
    rewrite Hsame. split; [reflexivity|].
    rewrite <- Hsame at 1. reflexivity.
  - destruct (clearJobsInState_some "failed" "failed" s [] j rest eq_refl Hfailed)
      as (Hr & Hc & _).
    rewrite Hr, Hc. repeat split.
Qed.

(** X15. [getJobDependencies] reads: whatever the identifier and whether
    its statement fails or not, it sends that one statement and leaves the
    store as it was. *)
Theorem getJobDependencies_only_reads :
  forall (s : Pg.store) (jobId : Js.value) (plan : list (option string)),
  let run := DatabaseService.getJobDependencies jobId (Pg.start s plan) in
  Pg.committed (snd run) = s
  /\ map fst (Pg.sent (snd run))
     = ["SELECT pre_task_id, post_task_id FROM task_deps WHERE job_id = $1"]
  /\ Pg.client (snd run) = Pg.NoClient.
Proof.
  intros s jobId plan run. subst run.
  unfold DatabaseService.getJobDependencies, Pg.bind, Pg.pool_query, Pg.send.
  change (Pg.next_fault (Pg.set_client Pg.Idle (Pg.start s plan))) with (nth 0 plan None).
  destruct (nth 0 plan None); [now repeat split|].
  change (Pg.parse "SELECT pre_task_id, post_task_id FROM task_deps WHERE job_id = $1" [jobId])
    with (Some (Pg.SelectTaskDepsOfJob jobId)).
  cbn [Pg.perform Pg.client Pg.rejected Pg.set_client Pg.start].
  destruct (Pg.bigint jobId) as [cast|e]; now repeat split.
Qed.

(** X16. [deleteJob], [clearCompletedJobs] and [clearFailedJobs] keep the
    store consistent, whatever calls fail: when every Task and every
    dependency row belonged to a Job before the call, so they do in the
    store the call leaves committed. *)
Theorem deletes_keep_the_store_consistent :
  forall (s : Pg.store) (plan : list (option string)),
  consistent s = true ->
  (forall jobId : Js.value,
     consistent (Pg.committed (snd (DatabaseService.deleteJob jobId (Pg.start s plan))))
     = true)
  /\ consistent (Pg.committed (snd (DatabaseService.clearCompletedJobs (Pg.start s plan))))
     = true
  /\ consistent (Pg.committed (snd (DatabaseService.clearFailedJobs (Pg.start s plan))))
     = true.
Proof.
  intros s plan Hs. split; [|split].
  - intros jobId. destruct (deleteJob_commits s jobId plan) as [[-> | ->] _];
      [exact Hs | now apply without_job_consistent].
  - destruct (clearJobsInState_commits "done" "completed" s plan) as [H|H];
      unfold DatabaseService.clearCompletedJobs; rewrite H;
      [exact Hs | now apply without_jobs_in_state_consistent].
  - destruct (clearJobsInState_commits "failed" "failed" s plan) as [H|H];
      unfold DatabaseService.clearFailedJobs; rewrite H;
      [exact Hs | now apply without_jobs_in_state_consistent].
Qed.

Lemma deletes_keep_the_store_consistent_witness :
  consistent
    (Pg.committed
       (snd (DatabaseService.clearFailedJobs
               (Pg.start example_store [None; None; None; None; None; Some "deadlock"]))))
  = true.
Proof.
  exact (proj2 (proj2 (deletes_keep_the_store_consistent example_store
                         [None; None; None; None; None; Some "deadlock"] eq_refl))).
Defined.

(** X17. Whatever calls fail, [deleteJob] gives its client back: when the
    call is over no client is checked out, also when the connection could
    not be had or ROLLBACK itself failed. *)
Theorem deleteJob_gives_its_client_back :
  forall (s : Pg.store) (jobId : Js.value) (plan : list (option string)),
  Pg.client (snd (DatabaseService.deleteJob jobId (Pg.start s plan))) = Pg.NoClient.
Proof.
  intros s jobId plan. apply deleteJob_commits.
Qed.
(** * Further properties of the sweep *)

Section BranchFacts.
Import Pg DatabaseService AutoClearService.



End BranchFacts.


